(** * The user controller of imooc_zhihu_api, embedded in Rocq

    Source: [src/controllers/users.js], the [UserCtrl] class (Koa handlers
    over a Mongoose [User] model).

    Conventions of the embedding.
    - A handler [async h(ctx)] is a function from the request context and
      the user collection to an [Outcome] and the collection afterwards.
    - A middleware [async m(ctx, next)] takes the continuation [next] as an
      argument.
    - The collection is the list of its documents in store order;
      [findOne]/[findById] return the first match, [find] every match.
    - An [Id] stands for an [ObjectId], written as the lower-case
      hexadecimal string its [toString] yields. A path or token id is a raw
      string of 24 hexadecimal digits in either case; wherever the store
      takes it for an [ObjectId] ([findById], a query value, [push] on an
      array of ids) it goes through [cast], which folds the case. The
      [CastError] of a string of another form is not modelled.
    - [ctx.verifyParams] refuses a missing required field and an empty
      string with 422; the body of [addUser] and [updateUserById] carries
      every key of the schema, the keys without a rule included.
    - Reading a property of [null] raises a [TypeError], compiling an
      ill-formed pattern a [SyntaxError], populating a path that holds no
      reference a [CastError]; nothing in the controller catches them: they
      are the outcome [Uncaught], distinct from a [ctx.throw].
    - Numbers are the integer-valued doubles, exact up to [2^53], and [NaN];
      a coercion or product that leaves this fragment has no value in the
      model ([None]). *)

From Stdlib Require Import ZArith String Ascii List Bool Lia.
From stdpp Require Import base option list strings.
Import ListNotations.
Local Open Scope string_scope.
Local Open Scope Z_scope.

(** ** Data model *)

Definition Id := string.

Inductive Gender := male | female.

Record Employment := { company : Id; job : Id }.
Record Education := { school : Id }.

(** Modelled from the spec: the [User] schema of [models/users], which is
    not among the sources. The fields are those of the spec's data model;
    [following] and [followingTopics] are arrays of ids. *)
Record User := mkUser {
  _id : Id;
  name : string;
  password : string;
  avatar_url : option string;
  gender : option Gender;
  headline : option string;
  locations : list string;
  business : option string;
  employments : list Employment;
  educations : list Education;
  following : list Id;
  followingTopics : list Id
}.

Definition Store := list User.

(** The claims [koa-jwt] leaves in [ctx.state.user]. *)
Record Claims := { claim_name : string; claim_id : Id }.

Record Query := {
  q : option string;
  page : option string;
  per_page : option string;
  fields : option string
}.

(** [ctx]: [ctx.params.id], [ctx.state.user], [ctx.query] and
    [ctx.request.body] (of type [B], by handler). *)
Record Ctx (B : Type) := {
  params_id : string;
  state_user : Claims;
  query : Query;
  request_body : B
}.
Arguments params_id {B} _.
Arguments state_user {B} _.
Arguments query {B} _.
Arguments request_body {B} _.

(** Body of [login]: the two fields of its rules. *)
Record Credentials := { cred_name : option string; cred_password : option string }.

(** Body of [addUser] and [updateUserById]: the keys of the schema, each
    one optional; the ids of the two arrays are raw strings. *)
Record Patch := {
  p_name : option string;
  p_password : option string;
  p_avatar_url : option string;
  p_gender : option Gender;
  p_headline : option string;
  p_locations : option (list string);
  p_business : option string;
  p_employments : option (list Employment);
  p_educations : option (list Education);
  p_following : option (list string);
  p_followingTopics : option (list string)
}.

(** What [jwt.sign(payload, secret, {expiresIn})] was given; the signature
    itself belongs to the token issuer. *)
Record Token := { payload : list (string * string); expiresIn : string }.

Inductive Payload :=
| PToken (token : Token)                      (* { token } *)
| PUsers (users : list User)                  (* an array of documents *)
| PProjected (user : User) (selectFields populateFields : string)
| PAdded (user : User)                        (* `add successfully ${...}` *)
| PUpdated (prior : option User)              (* `update successfully ${...}` *)
| PFollowers (followers : list User).         (* { followers } *)

Inductive Exn := TypeError | SyntaxError | CastError.

Inductive Outcome :=
| Respond (status : Z) (body : option Payload)
| Throw (status : Z) (message : string)       (* ctx.throw(status, message) *)
| Uncaught (e : Exn).

Definition Handler (B : Type) := Ctx B -> Store -> Outcome * Store.

(** ** Ids *)

(** A hexadecimal digit in lower case. *)
Definition lower_hex (c : ascii) : ascii :=
  let n := nat_of_ascii c in
  if ((65 <=? n) && (n <=? 70))%nat then ascii_of_nat (n + 32) else c.

(** The cast of a raw id to an [ObjectId]. *)
Fixpoint cast (raw : string) : Id :=
  match raw with
  | EmptyString => EmptyString
  | String c rest => String (lower_hex c) (cast rest)
  end.

(** [id.toString()]. *)
Definition toString (id : Id) : string := id.

(** [ctx.params.id] and [ctx.state.user._id] as the store takes them. *)
Definition path_id {B} (ctx : Ctx B) : Id := cast (params_id ctx).
Definition acting_id {B} (ctx : Ctx B) : Id := cast (claim_id (state_user ctx)).

(** ** The store *)

Definition findById (id : Id) (s : Store) : option User :=
  find (fun u => String.eqb (_id u) id) s.

(** [doc.save()] of a loaded document: the stored document with the same
    [_id] is replaced. *)
Fixpoint save (doc : User) (s : Store) : Store :=
  match s with
  | [] => []
  | u :: rest =>
      if String.eqb (_id u) (_id doc) then doc :: rest else u :: save doc rest
  end.

(** ** Array primitives *)

Definition includes (x : string) (l : list string) : bool :=
  existsb (String.eqb x) l.

Fixpoint indexOf_from (x : string) (l : list string) (i : Z) : Z :=
  match l with
  | [] => -1
  | y :: rest => if String.eqb y x then i else indexOf_from x rest (i + 1)
  end.

Definition indexOf (x : string) (l : list string) : Z := indexOf_from x l 0.

Definition push {A} (l : list A) (x : A) : list A := l ++ [x].

(** [l.splice(start, count)] for [0 <= start]. *)
Definition splice {A} (start count : Z) (l : list A) : list A :=
  take (Z.to_nat start) l ++ drop (Z.to_nat start + Z.to_nat count)%nat l.

Definition set_following (u : User) (l : list Id) : User :=
  mkUser (_id u) (name u) (password u) (avatar_url u) (gender u) (headline u)
         (locations u) (business u) (employments u) (educations u)
         l (followingTopics u).

Definition set_followingTopics (u : User) (l : list Id) : User :=
  mkUser (_id u) (name u) (password u) (avatar_url u) (gender u) (headline u)
         (locations u) (business u) (employments u) (educations u)
         (following u) l.

(** ** Relationship handlers *)

(** The test compares the raw [ctx.params.id] with the strings of the
    stored ids; [push] then casts it. *)
Definition follow {B} : Handler B := fun ctx s =>
  match findById (acting_id ctx) s with
  | None => (Uncaught TypeError, s)
  | Some me =>
      if negb (includes (params_id ctx) (map toString (following me)))
      then (Respond 204 None,
            save (set_following me (push (following me) (path_id ctx))) s)
      else (Respond 204 None, s)
  end.

Definition unfollow {B} : Handler B := fun ctx s =>
  match findById (acting_id ctx) s with
  | None => (Uncaught TypeError, s)
  | Some me =>
      let index := indexOf (params_id ctx) (map toString (following me)) in
      if index >? -1
      then (Respond 204 None,
            save (set_following me (splice index 1 (following me))) s)
      else (Respond 204 None, s)
  end.

Definition followingTopic {B} : Handler B := fun ctx s =>
  match findById (acting_id ctx) s with
  | None => (Uncaught TypeError, s)
  | Some me =>
      if negb (includes (params_id ctx) (map toString (followingTopics me)))
      then (Respond 204 None,
            save (set_followingTopics me
                    (push (followingTopics me) (path_id ctx))) s)
      else (Respond 204 None, s)
  end.

Definition unfollowingTopic {B} : Handler B := fun ctx s =>
  match findById (acting_id ctx) s with
  | None => (Uncaught TypeError, s)
  | Some me =>
      let index := indexOf (params_id ctx) (map toString (followingTopics me)) in
      if index >? -1
      then (Respond 204 None,
            save (set_followingTopics me
                    (splice index 1 (followingTopics me))) s)
      else (Respond 204 None, s)
  end.

(** The query [{ following: id }]: the documents whose array holds the
    id the value is cast to. *)
Definition getUserFollowers {B} : Handler B := fun ctx s =>
  let followers :=
    List.filter (fun u => includes (path_id ctx) (following u)) s in
  (Respond 200 (Some (PFollowers followers)), s).

(** [populate('following')]: every id that resolves is replaced by its
    document, the others are dropped. *)
Definition populate_following (s : Store) (u : User) : list User :=
  omap (fun id => findById id s) (following u).

Definition listFollowing {B} : Handler B := fun ctx s =>
  match findById (path_id ctx) s with
  | None => (Throw 412 "用户不存在", s)
  | Some user => (Respond 200 (Some (PUsers (populate_following s user))), s)
  end.

(** ** Guards *)

Definition checkOwner {B} (next : Handler B) : Handler B := fun ctx s =>
  if negb (String.eqb (params_id ctx) (claim_id (state_user ctx)))
  then (Throw 403 "没有权限", s)
  else next ctx s.

Definition checkUserExist {B} (next : Handler B) : Handler B := fun ctx s =>
  match findById (path_id ctx) s with
  | None => (Throw 412 "用户不存在", s)
  | Some _ => next ctx s
  end.

(** Modelled from the spec: the [Topic] schema of [models/topics], of which
    the controller reads the id only. *)
Record Topic := { topic_id : Id }.

Definition checkTopicExist {B} (topics : list Topic) (next : Handler B)
  : Handler B := fun ctx s =>
  match find (fun t => String.eqb (topic_id t) (path_id ctx)) topics with
  | None => (Throw 412 "用户不存在", s)
  | Some _ => next ctx s
  end.

(** ** Validation *)

(** A rule of type [string] refuses the empty string. *)
Definition nonempty (v : string) : bool := negb (String.eqb v "").

(** [{ type: 'string', required: false }]. *)
Definition optional_string (o : option string) : bool :=
  match o with Some v => nonempty v | None => true end.

(** [{ type: 'array', itemType: 'string', required: false }]. *)
Definition optional_strings (o : option (list string)) : bool :=
  match o with Some l => forallb nonempty l | None => true end.

(** The rules of [login] (lines 14-17): both fields required. *)
Definition verifyParams (b : Credentials) : option (string * string) :=
  match cred_name b, cred_password b with
  | Some n, Some p =>
      if nonempty n && nonempty p then Some (n, p) else None
  | _, _ => None
  end.

(** The rules of [addUser] (lines 74-77); the other keys have no rule. *)
Definition verifyParams_addUser (b : Patch) : option (string * string) :=
  match p_name b, p_password b with
  | Some n, Some p =>
      if nonempty n && nonempty p then Some (n, p) else None
  | _, _ => None
  end.

(** The rules of [updateUserById] (lines 92-102); [gender] and the arrays
    of objects are of the declared type already, [following] and
    [followingTopics] have no rule. *)
Definition verifyParams_updateUserById (b : Patch) : bool :=
  optional_string (p_name b) && optional_string (p_password b) &&
  optional_string (p_avatar_url b) && optional_string (p_headline b) &&
  optional_strings (p_locations b) && optional_string (p_business b).

(** ** Accounts *)

Definition findOne (P : User -> bool) (s : Store) : option User := find P s.

Definition jwt_sign (claims : list (string * string)) (expires : string) : Token :=
  {| payload := claims; expiresIn := expires |}.

Definition login : Handler Credentials := fun ctx s =>
  match verifyParams (request_body ctx) with
  | None => (Throw 422 "Validation Failed", s)
  | Some (n, p) =>
      match findOne (fun u => String.eqb (name u) n && String.eqb (password u) p) s with
      | None => (Throw 412 "用户名或密码错误", s)
      | Some user =>
          let token := jwt_sign [("name", name user); ("_id", _id user)] "1d" in
          (Respond 200 (Some (PToken token)), s)
      end
  end.

(** Modelled from the spec: the schema defaults of [models/users] for
    [new User({name, password})], a record with no profile field set and
    empty edge sets, under the [ObjectId] the store assigns. *)
Definition new_User (oid : Id) (n p : string) : User :=
  mkUser oid n p None None None [] None [] [] [] [].

Definition or_else {A} (o : option A) (d : A) : A :=
  match o with Some v => v | None => d end.

Definition or_keep {A} (o : option A) (d : option A) : option A :=
  match o with Some v => Some v | None => d end.

(** A document under the keys of a body: a key of the body replaces the
    stored field, the ids of the two arrays being cast. *)
Definition merge (u : User) (p : Patch) : User :=
  mkUser (_id u)
         (or_else (p_name p) (name u))
         (or_else (p_password p) (password u))
         (or_keep (p_avatar_url p) (avatar_url u))
         (or_keep (p_gender p) (gender u))
         (or_keep (p_headline p) (headline u))
         (or_else (p_locations p) (locations u))
         (or_keep (p_business p) (business u))
         (or_else (p_employments p) (employments u))
         (or_else (p_educations p) (educations u))
         (or_else (option_map (map cast) (p_following p)) (following u))
         (or_else (option_map (map cast) (p_followingTopics p)) (followingTopics u)).

(** [new User(ctx.request.body)] keeps every key of the body. *)
Definition addUser (oid : Id) : Handler Patch := fun ctx s =>
  match verifyParams_addUser (request_body ctx) with
  | None => (Throw 422 "Validation Failed", s)
  | Some (n, p) =>
      match findOne (fun u => String.eqb (name u) n) s with
      | Some _ => (Throw 409 "用户名已存在", s)
      | None =>
          let user := merge (new_User oid n p) (request_body ctx) in
          (Respond 200 (Some (PAdded user)), (s ++ [user])%list)
      end
  end.

(** [User.findByIdAndUpdate(id, body)]: the document as it was before the
    update ([null] when there is none), and the collection after it. *)
Fixpoint findByIdAndUpdate (id : Id) (p : Patch) (s : Store) : option User * Store :=
  match s with
  | [] => (None, [])
  | u :: rest =>
      if String.eqb (_id u) id then (Some u, merge u p :: rest)
      else let '(r, rest') := findByIdAndUpdate id p rest in (r, u :: rest')
  end.

Definition updateUserById : Handler Patch := fun ctx s =>
  if verifyParams_updateUserById (request_body ctx)
  then let '(user, s') := findByIdAndUpdate (path_id ctx) (request_body ctx) s in
       (Respond 200 (Some (PUpdated user)), s')
  else (Throw 422 "Validation Failed", s).

Fixpoint findByIdAndRemove (id : Id) (s : Store) : option User * Store :=
  match s with
  | [] => (None, [])
  | u :: rest =>
      if String.eqb (_id u) id then (Some u, rest)
      else let '(r, rest') := findByIdAndRemove id rest in (r, u :: rest')
  end.

Definition deleteUserById {B} : Handler B := fun ctx s =>
  let '(user, s') := findByIdAndRemove (path_id ctx) s in
  match user with
  | None => (Throw 412 "无该用户", s')
  | Some _ => (Respond 204 None, s')
  end.

(** ** Field projection *)

(** [s.split(sep)] for a one-character separator. *)
Fixpoint split (sep : ascii) (s : string) : list string :=
  match s with
  | EmptyString => [""]
  | String c rest =>
      if Ascii.eqb c sep then "" :: split sep rest
      else match split sep rest with
           | [] => [String c ""]
           | w :: ws => String c w :: ws
           end
  end.

(** The callback [Boolean] on a string: false on the empty string only. *)
Definition Boolean (v : string) : bool := negb (String.eqb v "").

Definition join (sep : string) (l : list string) : string := String.concat sep l.

(** The callback of the second [map] in [getUserById]. *)
Definition expansion (v : string) : string :=
  if String.eqb v "educations" then "educations.school"
  else if String.eqb v "employments" then "employments.company employments.job"
  else v.

Definition requested (fields_ : string) : list string :=
  List.filter Boolean (split ";" fields_).

Definition selectFields (fields_ : string) : string :=
  join " " (map (fun v => "+" ++ v) (requested fields_)).

Definition popluateFields (fields_ : string) : string :=
  join " " (map expansion (requested fields_)).

(** [populates paths user] tells whether the store's [populate(paths)]
    succeeds on the document: it depends on which paths of the schema hold
    references, which the sources do not show. When it fails the store
    raises a [CastError]. *)
Definition getUserById {B} (populates : string -> User -> bool) : Handler B :=
  fun ctx s =>
  let fields_ := or_else (fields (query ctx)) "" in
  match findById (path_id ctx) s with
  | None => (Throw 412 "无该用户", s)
  | Some user =>
      if populates (popluateFields fields_) user
      then (Respond 200
              (Some (PProjected user (selectFields fields_) (popluateFields fields_))),
            s)
      else (Uncaught CastError, s)
  end.

(** How the store reads the string given to [select] or [populate]: the
    paths are its space-separated words. *)
Definition paths (arg : string) : list string :=
  List.filter Boolean (split " " arg).

(** ** Numbers and pagination *)

Inductive Number := NaN | Num (z : Z).

Definition safe (z : Z) : bool := Z.abs z <=? 2 ^ 53.

Definition is_digit (c : ascii) : bool :=
  let n := Z.of_nat (nat_of_ascii c) in (48 <=? n) && (n <=? 57).

Definition is_letter (c : ascii) : bool :=
  let n := Z.of_nat (nat_of_ascii c) in
  ((65 <=? n) && (n <=? 90)) || ((97 <=? n) && (n <=? 122)).

Fixpoint all_chars (P : ascii -> bool) (s : string) : bool :=
  match s with
  | EmptyString => true
  | String c rest => P c && all_chars P rest
  end.

Fixpoint digits_value (s : string) (acc : Z) : option Z :=
  match s with
  | EmptyString => Some acc
  | String c rest =>
      if is_digit c
      then digits_value rest (10 * acc + (Z.of_nat (nat_of_ascii c) - 48))
      else None
  end.

(** One to fifteen decimal digits: every such value is an exact double. *)
Definition decimal (s : string) : option Z :=
  if String.eqb s "" || (15 <? Z.of_nat (String.length s)) then None
  else digits_value s 0.

(** [ToNumber] on the strings whose value lies in the modelled fragment:
    the empty string, signed decimal integers, and words of letters (which
    are [NaN], except [Infinity]). *)
Definition ToNumber (s : string) : option Number :=
  match s with
  | EmptyString => Some (Num 0)
  | String "-" rest => option_map (fun z => Num (- z)) (decimal rest)
  | String "+" rest => option_map Num (decimal rest)
  | _ =>
      match decimal s with
      | Some z => Some (Num z)
      | None =>
          if all_chars is_letter s && negb (String.eqb s "Infinity")
          then Some NaN else None
      end
  end.

(** [v * 1] for a query value [v], [d] being the destructuring default. *)
Definition times1 (v : option string) (d : Z) : option Number :=
  match v with
  | None => Some (Num d)
  | Some str => ToNumber str
  end.

Definition Math_max (a b : Number) : Number :=
  match a, b with
  | Num x, Num y => Num (Z.max x y)
  | _, _ => NaN
  end.

Definition num_sub (a b : Number) : option Number :=
  match a, b with
  | Num x, Num y => if safe (x - y) then Some (Num (x - y)) else None
  | _, _ => Some NaN
  end.

Definition num_mul (a b : Number) : option Number :=
  match a, b with
  | Num x, Num y => if safe (x * y) then Some (Num (x * y)) else None
  | _, _ => Some NaN
  end.

(** Lines 39-41 and the arguments of [limit] and [skip]. *)
Definition paging (qu : Query) : option (Number * Number) :=
  per_page0 ← times1 (per_page qu) 2;
  let per_page1 := Math_max per_page0 (Num 1) in
  page0 ← times1 (page qu) 1;
  page1 ← num_sub (Math_max page0 (Num 1)) (Num 1);
  skip ← num_mul page1 per_page1;
  Some (per_page1, skip).

Section Listing.

(** [new RegExp(q, 'i')]: [None] when the pattern is ill-formed, else
    its [test] on a name. *)
Variable RegExp_i : option string -> option (string -> bool).

(** [None] where the source does not fix the result: numbers outside the
    fragment, or a [NaN] handed to the store. *)
Definition getAllUsers {B} (ctx : Ctx B) (s : Store) : option (Outcome * Store) :=
  match paging (query ctx) with
  | None => None
  | Some (limit, skip) =>
      match RegExp_i (q (query ctx)) with
      | None => Some (Uncaught SyntaxError, s)
      | Some test =>
          match limit, skip with
          | Num limit, Num skip =>
              let users :=
                take (Z.to_nat limit)
                  (drop (Z.to_nat skip) (List.filter (fun u => test (name u)) s)) in
              Some (Respond 200 (Some (PUsers users)), s)
          | _, _ => None
          end
      end
  end.

End Listing.


(** ** The layer as a transition system *)

Inductive Request :=
| ReqLogin (ctx : Ctx Credentials)
| ReqGetUserById (populates : string -> User -> bool) (ctx : Ctx unit)
| ReqAddUser (oid : Id) (ctx : Ctx Patch)
| ReqUpdateUserById (ctx : Ctx Patch)
| ReqDeleteUserById (ctx : Ctx unit)
| ReqListFollowing (ctx : Ctx unit)
| ReqFollow (ctx : Ctx unit)
| ReqUnfollow (ctx : Ctx unit)
| ReqGetUserFollowers (ctx : Ctx unit)
| ReqFollowingTopic (ctx : Ctx unit)
| ReqUnfollowingTopic (ctx : Ctx unit).

Definition handle (r : Request) (s : Store) : Outcome * Store :=
  match r with
  | ReqLogin ctx => login ctx s
  | ReqGetUserById populates ctx => getUserById populates ctx s
  | ReqAddUser oid ctx => addUser oid ctx s
  | ReqUpdateUserById ctx => updateUserById ctx s
  | ReqDeleteUserById ctx => deleteUserById ctx s
  | ReqListFollowing ctx => listFollowing ctx s
  | ReqFollow ctx => follow ctx s
  | ReqUnfollow ctx => unfollow ctx s
  | ReqGetUserFollowers ctx => getUserFollowers ctx s
  | ReqFollowingTopic ctx => followingTopic ctx s
  | ReqUnfollowingTopic ctx => unfollowingTopic ctx s
  end.

(** The collections the handlers can build from the empty one
    ([getAllUsers] only reads). *)
Inductive reachable : Store -> Prop :=
| reachable_empty : reachable []
| reachable_step r s : reachable s -> reachable (snd (handle r s)).

(** The two edge kinds of the relationship graph. *)
Inductive EdgeKind := FollowingUsers | FollowingTopics.

Definition edges (k : EdgeKind) (u : User) : list Id :=
  match k with
  | FollowingUsers => following u
  | FollowingTopics => followingTopics u
  end.

Definition other (k : EdgeKind) : EdgeKind :=
  match k with
  | FollowingUsers => FollowingTopics
  | FollowingTopics => FollowingUsers
  end.

(** The owner's edge set as the store holds it; [None] without owner. *)
Definition edgeSet (k : EdgeKind) (owner : Id) (s : Store) : option (list Id) :=
  edges k <$> findById owner s.

Definition add {B} (k : EdgeKind) : Handler B :=
  match k with FollowingUsers => follow | FollowingTopics => followingTopic end.

Definition remove {B} (k : EdgeKind) : Handler B :=
  match k with FollowingUsers => unfollow | FollowingTopics => unfollowingTopic end.

Definition set_edges (k : EdgeKind) (u : User) (l : list Id) : User :=
  match k with
  | FollowingUsers => set_following u l
  | FollowingTopics => set_followingTopics u l
  end.

(** Every id of a [following] array has a record. *)
Definition following_resolve (s : Store) : Prop :=
  forall u, u ∈ s -> forall id, id ∈ following u -> is_Some (findById id s).

(** Every id of a [followingTopics] array is the id of a topic. *)
Definition topics_resolve (topics : list Topic) (s : Store) : Prop :=
  forall u, u ∈ s -> forall id, id ∈ followingTopics u -> id ∈ map topic_id topics.

(** What [login] reads of a record. *)
Definition credential_view (u : User) : string * string * Id :=
  (name u, password u, _id u).

(** The documents [getAllUsers] pages through. *)
Definition matching (test : string -> bool) (s : Store) : list User :=
  List.filter (fun u => test (name u)) s.

(** ** Sample requests and collections *)

Definition no_query : Query :=
  {| q := None; page := None; per_page := None; fields := None |}.

(** A request of the user [acting] on the path id [target]. *)
Definition request {B} (acting target : string) (body : B) : Ctx B :=
  {| params_id := target;
     state_user := {| claim_name := ""; claim_id := acting |};
     query := no_query;
     request_body := body |}.

(** Ids of the samples, in the 24-digit form of an [ObjectId]. *)
Definition alice_id : Id := "a11ce0000000000000000001".
Definition bob_id : Id := "b0b000000000000000000002".
Definition bobby_id : Id := "b0bb1e000000000000000003".
Definition alice2_id : Id := "a11ce2000000000000000004".
Definition stranger_id : Id := "5eaf00d00000000000000005".

(** bob's id as a path may spell it, in upper case. *)
Definition upper_bob_id : string := "B0B000000000000000000002".

Definition credentials (n p : string) : Credentials :=
  {| cred_name := Some n; cred_password := Some p |}.

(** The body [{name, password}]. *)
Definition signup (n p : string) : Patch :=
  {| p_name := Some n; p_password := Some p; p_avatar_url := None;
     p_gender := None; p_headline := None; p_locations := None;
     p_business := None; p_employments := None; p_educations := None;
     p_following := None; p_followingTopics := None |}.

(** The body [{name, password, following}]. *)
Definition signup_following (n p : string) (ids : list string) : Patch :=
  {| p_name := Some n; p_password := Some p; p_avatar_url := None;
     p_gender := None; p_headline := None; p_locations := None;
     p_business := None; p_employments := None; p_educations := None;
     p_following := Some ids; p_followingTopics := None |}.

(** The body [{name}]. *)
Definition rename (n : string) : Patch :=
  {| p_name := Some n; p_password := None; p_avatar_url := None;
     p_gender := None; p_headline := None; p_locations := None;
     p_business := None; p_employments := None; p_educations := None;
     p_following := None; p_followingTopics := None |}.

(** The body [{password}]. *)
Definition new_password (pw : string) : Patch :=
  {| p_name := None; p_password := Some pw; p_avatar_url := None;
     p_gender := None; p_headline := None; p_locations := None;
     p_business := None; p_employments := None; p_educations := None;
     p_following := None; p_followingTopics := None |}.

(** alice and bob register, in this order. *)
Definition registered : Store :=
  snd (handle (ReqAddUser bob_id (request "" "" (signup "bob" "right")))
    (snd (handle (ReqAddUser alice_id (request "" "" (signup "alice" "pw"))) []))).

(** A third account registers as bobby with bob's password and is then
    renamed to bob. *)
Definition two_bobs : Store :=
  snd (handle (ReqUpdateUserById (request bobby_id bobby_id (rename "bob")))
    (snd (handle (ReqAddUser bobby_id (request "" "" (signup "bobby" "right")))
       registered))).

(** alice then follows bob. *)
Definition alice_follows_bob : Store :=
  snd (handle (ReqFollow (request alice_id bob_id tt)) registered).

(** alice then follows bobby's id as well. *)
Definition alice_follows_two : Store :=
  snd (handle (ReqFollow (request alice_id bobby_id tt)) alice_follows_bob).

Definition topic_rocq : Id := "70b1c0000000000000000006".
Definition sample_topics : list Topic := [ {| topic_id := topic_rocq |} ].

Definition page_query (pg pp : string) : Query :=
  {| q := None; page := Some pg; per_page := Some pp; fields := None |}.

Definition listing {B} (qu : Query) (body : B) : Ctx B :=
  {| params_id := "";
     state_user := {| claim_name := ""; claim_id := "" |};
     query := qu;
     request_body := body |}.

Definition asking {B} (target fields_ : string) (body : B) : Ctx B :=
  {| params_id := target;
     state_user := {| claim_name := ""; claim_id := "" |};
     query := {| q := None; page := None; per_page := None; fields := Some fields_ |};
     request_body := body |}.

(** A sample of the schema's reference paths: [populate] succeeds when
    every path it is given is one of them. *)
Definition reference_paths : list string :=
  ["following"; "followingTopics"; "educations.school";
   "employments.company"; "employments.job"].

Definition sample_populates (arg : string) (u : User) : bool :=
  forallb (fun p => includes p reference_paths) (paths arg).

(** * Properties *)

(** ** Arrays *)

Lemma map_toString (l : list Id) : map toString l = l.
Proof. unfold toString. apply map_id. Qed.

Lemma includes_elem_of (x : string) (l : list string) :
  includes x l = true <-> x ∈ l.
Proof.
  unfold includes. rewrite existsb_exists. split.
  - intros (y & Hy & Heq). apply String.eqb_eq in Heq. subst y.
    by apply list_elem_of_In.
  - intros Hx. exists x. split; [by apply list_elem_of_In | apply String.eqb_refl].
Qed.

Lemma includes_false (x : string) (l : list string) :
  includes x l = false <-> x ∉ l.
Proof.
  rewrite <- includes_elem_of. destruct (includes x l); split; congruence.
Qed.

(** [indexOf] answers -1 exactly when the value is absent, and otherwise
    the position of its first occurrence. *)
Lemma indexOf_from_spec (x : string) (l : list string) (i : Z) :
  ((x ∉ l) /\ indexOf_from x l i = -1) \/
  (exists n : nat, indexOf_from x l i = i + Z.of_nat n /\
                   l !! n = Some x /\ (x ∉ take n l)).
Proof.
  revert i. induction l as [|y l IH]; intros i; simpl.
  - left. split; [apply not_elem_of_nil | reflexivity].
  - destruct (String.eqb y x) eqn:E.
    + apply String.eqb_eq in E. subst y. right. exists 0%nat. simpl.
      repeat split; [lia | apply not_elem_of_nil].
    + apply String.eqb_neq in E.
      destruct (IH (i + 1)) as [[Hn He] | (n & He & Hl & Ht)].
      * left. split; [|exact He]. rewrite not_elem_of_cons. split; congruence.
      * right. exists (S n). simpl. split; [lia|]. split; [exact Hl|].
        rewrite not_elem_of_cons. split; congruence.
Qed.

Lemma indexOf_spec (x : string) (l : list string) :
  ((x ∉ l) /\ indexOf x l = -1) \/
  (exists n : nat, indexOf x l = Z.of_nat n /\ l !! n = Some x /\ (x ∉ take n l)).
Proof.
  unfold indexOf. destruct (indexOf_from_spec x l 0) as [H | (n & H1 & H2)].
  - by left.
  - right. exists n. split; [lia | exact H2].
Qed.

Lemma splice_one {A} (n : nat) (l : list A) :
  splice (Z.of_nat n) 1 l = delete n l.
Proof.
  unfold splice. rewrite Nat2Z.id, delete_take_drop.
  by replace (n + Z.to_nat 1)%nat with (S n) by lia.
Qed.

Lemma delete_NoDup {A} (n : nat) (l : list A) : NoDup l -> NoDup (delete n l).
Proof. intros H. eapply sublist_NoDup; [exact H | apply sublist_delete]. Qed.

Lemma delete_only_occurrence {A} (n : nat) (x : A) (l : list A) :
  NoDup l -> l !! n = Some x -> x ∉ delete n l.
Proof.
  intros Hnd Hl. rewrite <- (take_drop_middle l n x Hl) in Hnd.
  apply NoDup_app in Hnd as (_ & Hdisj & Hnd).
  apply NoDup_cons in Hnd as [Hx _].
  rewrite delete_take_drop, not_elem_of_app. split; [|exact Hx].
  intros Hin. apply (Hdisj x Hin). apply elem_of_cons. by left.
Qed.

Lemma push_NoDup {A} (x : A) (l : list A) : NoDup l -> x ∉ l -> NoDup (push l x).
Proof.
  intros Hnd Hx. unfold push. apply NoDup_app. split; [exact Hnd|]. split.
  - intros y Hy Hy'. apply list_elem_of_singleton in Hy'. by subst y.
  - apply NoDup_singleton.
Qed.

Lemma push_elem_of {A} (x : A) (l : list A) : x ∈ push l x.
Proof. unfold push. apply elem_of_app. right. by apply list_elem_of_singleton. Qed.

(** ** The store *)

Lemma findById_id (id : Id) (s : Store) (u : User) :
  findById id s = Some u -> _id u = id /\ u ∈ s.
Proof.
  unfold findById. intros H. apply find_some in H as [Hin Heq].
  apply String.eqb_eq in Heq. split; [exact Heq | by apply list_elem_of_In].
Qed.

Lemma findById_None (id : Id) (s : Store) :
  findById id s = None <-> forall u, u ∈ s -> _id u <> id.
Proof.
  unfold findById. split.
  - intros H u Hu. apply String.eqb_neq.
    apply (find_none _ _ H). by apply list_elem_of_In.
  - induction s as [|u s IH]; intros H; simpl; [reflexivity|].
    destruct (String.eqb (_id u) id) eqn:E.
    + apply String.eqb_eq in E. exfalso. apply (H u); [apply elem_of_cons; by left | exact E].
    + apply IH. intros v Hv. apply H. apply elem_of_cons. by right.
Qed.

Lemma findById_save_same (doc me : User) (s : Store) :
  findById (_id doc) s = Some me -> findById (_id doc) (save doc s) = Some doc.
Proof.
  unfold findById. induction s as [|u s IH]; simpl; [discriminate|].
  destruct (String.eqb (_id u) (_id doc)) eqn:E; simpl.
  - intros _. by rewrite String.eqb_refl.
  - rewrite E. exact IH.
Qed.

Lemma findById_save_other (id : Id) (doc : User) (s : Store) :
  id <> _id doc -> findById id (save doc s) = findById id s.
Proof.
  intros Hne. unfold findById. induction s as [|u s IH]; simpl; [reflexivity|].
  destruct (String.eqb (_id u) (_id doc)) eqn:E; simpl.
  - apply String.eqb_eq in E.
    assert (String.eqb (_id doc) id = false) as -> by (apply String.eqb_neq; congruence).
    assert (String.eqb (_id u) id = false) as -> by (apply String.eqb_neq; congruence).
    reflexivity.
  - destruct (String.eqb (_id u) id); [reflexivity | exact IH].
Qed.

Lemma lower_hex_idem (c : ascii) : lower_hex (lower_hex c) = lower_hex c.
Proof. destruct c as [[] [] [] [] [] [] [] []]; reflexivity. Qed.

(** An id that went through the cast is in canonical form. *)
Lemma cast_idem (raw : string) : cast (cast raw) = cast raw.
Proof.
  induction raw as [|c rest IH]; simpl; [reflexivity|].
  by rewrite lower_hex_idem, IH.
Qed.

(** ** Relationship graph *)

Lemma add_cases {B} (k : EdgeKind) (ctx : Ctx B) (s : Store) (me : User) :
  findById (acting_id ctx) s = Some me ->
  (params_id ctx ∈ edges k me /\ add k ctx s = (Respond 204 None, s)) \/
  ((params_id ctx ∉ edges k me) /\
   exists me', add k ctx s = (Respond 204 None, save me' s) /\
               _id me' = _id me /\
               edges k me' = push (edges k me) (path_id ctx) /\
               edges (other k) me' = edges (other k) me).
Proof.
  intros Hme.
  destruct k; simpl; unfold follow, followingTopic; rewrite Hme, map_toString.
  - destruct (includes (params_id ctx) (following me)) eqn:E; simpl.
    + left. by apply includes_elem_of in E.
    + right. apply includes_false in E. split; [exact E|]. by eexists.
  - destruct (includes (params_id ctx) (followingTopics me)) eqn:E; simpl.
    + left. by apply includes_elem_of in E.
    + right. apply includes_false in E. split; [exact E|]. by eexists.
Qed.

Lemma remove_cases {B} (k : EdgeKind) (ctx : Ctx B) (s : Store) (me : User) :
  findById (acting_id ctx) s = Some me ->
  ((params_id ctx ∉ edges k me) /\ remove k ctx s = (Respond 204 None, s)) \/
  (exists (n : nat) me',
      edges k me !! n = Some (params_id ctx) /\
      remove k ctx s = (Respond 204 None, save me' s) /\
      _id me' = _id me /\
      edges k me' = delete n (edges k me) /\
      edges (other k) me' = edges (other k) me).
Proof.
  intros Hme.
  destruct k; simpl; unfold unfollow, unfollowingTopic; rewrite Hme, map_toString; simpl.
  - destruct (indexOf_spec (params_id ctx) (following me))
      as [[Hn ->] | (n & -> & Hl & _)].
    + by left.
    + right. exists n. eexists. split; [exact Hl|].
      replace (Z.of_nat n >? -1) with true by (symmetry; apply Z.gtb_lt; lia).
      rewrite splice_one. by repeat split.
  - destruct (indexOf_spec (params_id ctx) (followingTopics me))
      as [[Hn ->] | (n & -> & Hl & _)].
    + by left.
    + right. exists n. eexists. split; [exact Hl|].
      replace (Z.of_nat n >? -1) with true by (symmetry; apply Z.gtb_lt; lia).
      rewrite splice_one. by repeat split.
Qed.

Lemma save_owner (owner : Id) (me me' : User) (s : Store) :
  findById owner s = Some me -> _id me' = _id me ->
  findById owner (save me' s) = Some me'.
Proof.
  intros Hme Hid. destruct (findById_id _ _ _ Hme) as [Ho _].
  rewrite <- Ho, <- Hid. apply (findById_save_same me' me).
  by rewrite Hid, Ho.
Qed.

(** After [add] the acting user's record holds the id the path is cast
    to, provided the ids it held were in canonical form, as [ObjectId]s
    are. *)
Lemma add_post {B} (k : EdgeKind) (ctx : Ctx B) (s : Store) (me : User) :
  findById (acting_id ctx) s = Some me ->
  exists me',
    fst (add k ctx s) = Respond 204 None /\
    findById (acting_id ctx) (snd (add k ctx s)) = Some me' /\
    ((forall id, id ∈ edges k me -> cast id = id) -> path_id ctx ∈ edges k me') /\
    edges (other k) me' = edges (other k) me.
Proof.
  intros Hme.
  destruct (add_cases k ctx s me Hme) as [[Hin ->] | (Hout & me' & -> & Hid & Hk & Ho)].
  - exists me. simpl. repeat split; [exact Hme|].
    intros Hc. unfold path_id. by rewrite (Hc _ Hin).
  - exists me'. simpl. split; [reflexivity|].
    split; [by apply (save_owner _ me)|].
    split; [intros _; rewrite Hk; apply push_elem_of | exact Ho].
Qed.

(** After [remove] the first occurrence of the raw path id is gone; it
    was the only one if the set held every id once. *)
Lemma remove_post {B} (k : EdgeKind) (ctx : Ctx B) (s : Store) (me : User) :
  findById (acting_id ctx) s = Some me ->
  exists me',
    fst (remove k ctx s) = Respond 204 None /\
    findById (acting_id ctx) (snd (remove k ctx s)) = Some me' /\
    (NoDup (edges k me) -> (params_id ctx ∉ edges k me') /\ NoDup (edges k me')) /\
    edges (other k) me' = edges (other k) me.
Proof.
  intros Hme.
  destruct (remove_cases k ctx s me Hme)
    as [[Hout ->] | (n & me' & Hl & -> & Hid & Hk & Ho)].
  - exists me. simpl. by repeat split.
  - exists me'. simpl. split; [reflexivity|].
    split; [by apply (save_owner _ me)|].
    split; [|exact Ho].
    intros Hnd. rewrite Hk. split;
      [by apply delete_only_occurrence | by apply delete_NoDup].
Qed.

(** With the path id in canonical form a second [add] changes nothing. *)
Lemma add_again {B} (k : EdgeKind) (ctx : Ctx B) (s : Store) (me : User) :
  findById (acting_id ctx) s = Some me ->
  path_id ctx = params_id ctx ->
  add k ctx (snd (add k ctx s)) = (Respond 204 None, snd (add k ctx s)).
Proof.
  intros Hme Hc.
  destruct (add_cases k ctx s me Hme) as [[Hin ->] | (Hout & me' & -> & Hid & Hk & Ho)].
  - simpl. destruct (add_cases k ctx s me Hme) as [[_ H] | [Hout _]]; [exact H | done].
  - simpl. pose proof (save_owner _ me me' s Hme Hid) as Hme'.
    destruct (add_cases k ctx _ me' Hme') as [[_ H] | [Hout' _]]; [exact H|].
    exfalso. apply Hout'. rewrite Hk, <- Hc. apply push_elem_of.
Qed.

(** On an edge set that holds no id twice a second [remove] changes
    nothing. *)
Lemma remove_again {B} (k : EdgeKind) (ctx : Ctx B) (s : Store) (me : User) :
  findById (acting_id ctx) s = Some me ->
  NoDup (edges k me) ->
  remove k ctx (snd (remove k ctx s)) = (Respond 204 None, snd (remove k ctx s)).
Proof.
  intros Hme Hnd.
  destruct (remove_post k ctx s me Hme) as (me' & _ & Hme' & Hgone & _).
  destruct (Hgone Hnd) as [Hout _].
  destruct (remove_cases k ctx _ me' Hme') as [[_ H] | (n & ? & Hl & _)]; [exact H|].
  exfalso. apply Hout. eapply list_elem_of_lookup_2. exact Hl.
Qed.

Lemma registered_reachable : reachable registered.
Proof. unfold registered. do 2 apply reachable_step. apply reachable_empty. Qed.

Lemma alice_follows_bob_reachable : reachable alice_follows_bob.
Proof. unfold alice_follows_bob. apply reachable_step, registered_reachable. Qed.

(** C1, where the code departs from it. The test of [follow] compares
    the raw path id with the lower-case strings of the stored ids, and
    [push] then casts it: alice follows bob under the upper-case spelling
    of his id, and the second call, answered 204 like the first, stores
    his id a second time, so that two calls do not leave the edge set one
    call leaves. *)
Theorem follow_twice_respelled :
  reachable registered /\
  cast upper_bob_id = bob_id /\
  fst (follow (request alice_id upper_bob_id tt) registered) = Respond 204 None /\
  edgeSet FollowingUsers alice_id
    (snd (follow (request alice_id upper_bob_id tt) registered)) = Some [bob_id] /\
  fst (follow (request alice_id upper_bob_id tt)
         (snd (follow (request alice_id upper_bob_id tt) registered)))
    = Respond 204 None /\
  edgeSet FollowingUsers alice_id
    (snd (follow (request alice_id upper_bob_id tt)
            (snd (follow (request alice_id upper_bob_id tt) registered))))
    = Some [bob_id; bob_id] /\
  edgeSet FollowingTopics alice_id
    (snd (followingTopic (request alice_id upper_bob_id tt)
            (snd (followingTopic (request alice_id upper_bob_id tt) registered))))
    = Some [bob_id; bob_id].
Proof. split; [exact registered_reachable | by repeat split]. Qed.

(** [add] and [remove] write the acting user's record only. *)
Lemma add_frame {B} (k : EdgeKind) (ctx : Ctx B) (s : Store) (id : Id) :
  id <> acting_id ctx ->
  findById id (snd (add k ctx s)) = findById id s.
Proof.
  intros Hne. destruct (findById (acting_id ctx) s) as [me|] eqn:Hme.
  - destruct (findById_id _ _ _ Hme) as [Ho _].
    destruct (add_cases k ctx s me Hme) as [[_ ->] | (_ & me' & -> & Hid & _)];
      [reflexivity|].
    simpl. apply findById_save_other. congruence.
  - destruct k; simpl; unfold follow, followingTopic; by rewrite Hme.
Qed.

Lemma remove_frame {B} (k : EdgeKind) (ctx : Ctx B) (s : Store) (id : Id) :
  id <> acting_id ctx ->
  findById id (snd (remove k ctx s)) = findById id s.
Proof.
  intros Hne. destruct (findById (acting_id ctx) s) as [me|] eqn:Hme.
  - destruct (findById_id _ _ _ Hme) as [Ho _].
    destruct (remove_cases k ctx s me Hme)
      as [[_ ->] | (n & me' & _ & -> & Hid & _)]; [reflexivity|].
    simpl. apply findById_save_other. congruence.
  - destruct k; simpl; unfold unfollow, unfollowingTopic; by rewrite Hme.
Qed.

(** C2, where the code departs from it. On the collection in which alice
    follows bob, [follow] under the upper-case spelling of bob's id stores
    the id twice, and [unfollow] under that spelling removes nothing, so
    that bob's id is still in the set after the removal; and [addUser]
    stores the [following] array of a body as it comes, an id twice
    included. *)
Theorem edge_set_respelled :
  reachable alice_follows_bob /\
  edgeSet FollowingUsers alice_id alice_follows_bob = Some [bob_id] /\
  edgeSet FollowingUsers alice_id
    (snd (follow (request alice_id upper_bob_id tt) alice_follows_bob))
    = Some [bob_id; bob_id] /\
  ~ NoDup [bob_id; bob_id] /\
  unfollow (request alice_id upper_bob_id tt) alice_follows_bob
    = (Respond 204 None, alice_follows_bob) /\
  edgeSet FollowingUsers alice2_id
    (snd (addUser alice2_id
            (request "" "" (signup_following "carol" "s3cret" [bob_id; bob_id]))
            registered))
    = Some [bob_id; bob_id].
Proof.
  split; [exact alice_follows_bob_reachable|]. repeat split.
  intros H. apply NoDup_cons in H as [H _]. apply H. by left.
Qed.

(** C9. [follow], [unfollow], [followingTopic] and [unfollowingTopic] read
    a property of the acting user's record without testing it: when the id
    of the session token has no record, each one ends in an uncaught
    [TypeError] rather than in a [ctx.throw], and writes nothing. *)
Theorem relationship_handlers_null_record {B} (ctx : Ctx B) (s : Store) :
  findById (acting_id ctx) s = None ->
  follow ctx s = (Uncaught TypeError, s) /\
  unfollow ctx s = (Uncaught TypeError, s) /\
  followingTopic ctx s = (Uncaught TypeError, s) /\
  unfollowingTopic ctx s = (Uncaught TypeError, s).
Proof.
  intros Hnone. unfold follow, unfollow, followingTopic, unfollowingTopic.
  rewrite Hnone. by repeat split.
Qed.

Lemma relationship_handlers_null_record_witness :
  findById (acting_id (request stranger_id bob_id tt)) registered = None /\
  follow (request stranger_id bob_id tt) registered = (Uncaught TypeError, registered) /\
  unfollow (request stranger_id bob_id tt) registered = (Uncaught TypeError, registered) /\
  followingTopic (request stranger_id bob_id tt) registered = (Uncaught TypeError, registered) /\
  unfollowingTopic (request stranger_id bob_id tt) registered = (Uncaught TypeError, registered).
Proof.
  split; [reflexivity|].
  apply (relationship_handlers_null_record (request stranger_id bob_id tt) registered).
  reflexivity.
Defined.

(** ** Guards *)

Lemma checkOwner_pass {B} (next : Handler B) (ctx : Ctx B) (s : Store) :
  params_id ctx = claim_id (state_user ctx) -> checkOwner next ctx s = next ctx s.
Proof. intros H. unfold checkOwner. by rewrite H, String.eqb_refl. Qed.

(** C7. Authorization gate. Whatever handler [checkOwner] guards (so
    [updateUserById] and [deleteUserById] among them), when the id in the
    session token differs from the id in the path the request ends in 403
    and the collection is untouched: the guarded handler does not run. The
    test is the equality of the two ids and nothing else: when they are
    equal the outcome is the guarded handler's. *)
Theorem checkOwner_gate {B} (next : Handler B) (ctx : Ctx B) (s : Store) :
  (params_id ctx <> claim_id (state_user ctx) ->
   checkOwner next ctx s = (Throw 403 "没有权限", s)) /\
  (params_id ctx = claim_id (state_user ctx) ->
   checkOwner next ctx s = next ctx s).
Proof.
  split; [|apply checkOwner_pass].
  intros Hne. unfold checkOwner.
  apply String.eqb_neq in Hne. by rewrite Hne.
Qed.

Lemma checkOwner_gate_witness :
  bob_id <> alice_id /\
  checkOwner updateUserById (request alice_id bob_id (rename "eve")) registered
    = (Throw 403 "没有权限", registered) /\
  checkOwner deleteUserById (request alice_id bob_id tt) registered
    = (Throw 403 "没有权限", registered) /\
  checkOwner updateUserById (request bob_id bob_id (rename "eve")) registered
    = updateUserById (request bob_id bob_id (rename "eve")) registered.
Proof.
  assert (bob_id <> alice_id) as Hne by (unfold bob_id, alice_id; discriminate).
  split; [exact Hne|]. split; [|split].
  - exact (proj1 (checkOwner_gate updateUserById
                    (request alice_id bob_id (rename "eve")) registered) Hne).
  - exact (proj1 (checkOwner_gate deleteUserById
                    (request alice_id bob_id tt) registered) Hne).
  - exact (proj2 (checkOwner_gate updateUserById
                    (request bob_id bob_id (rename "eve")) registered) eq_refl).
Defined.

(** ** Accounts *)

Lemma findByIdAndUpdate_absent (id : Id) (p : Patch) (s : Store) :
  findById id s = None -> findByIdAndUpdate id p s = (None, s).
Proof.
  unfold findById. induction s as [|u s IH]; simpl; [reflexivity|].
  destruct (String.eqb (_id u) id); [discriminate|].
  intros H. by rewrite (IH H).
Qed.

Lemma findByIdAndRemove_absent (id : Id) (s : Store) :
  findById id s = None -> findByIdAndRemove id s = (None, s).
Proof.
  unfold findById. induction s as [|u s IH]; simpl; [reflexivity|].
  destruct (String.eqb (_id u) id); [discriminate|].
  intros H. by rewrite (IH H).
Qed.

(** C10. [updateUserById] does not test that the id has a record: for an
    id absent from the collection and a body that passes its rules it
    answers 200 with the text built from a [null] prior record and
    changes nothing, whereas [deleteUserById] on the same id ends in
    [ctx.throw(412)]. *)
Theorem update_absent_succeeds_delete_fails
  {B} (ctx : Ctx Patch) (ctx' : Ctx B) (s : Store) :
  findById (path_id ctx) s = None ->
  verifyParams_updateUserById (request_body ctx) = true ->
  path_id ctx' = path_id ctx ->
  updateUserById ctx s = (Respond 200 (Some (PUpdated None)), s) /\
  deleteUserById ctx' s = (Throw 412 "无该用户", s).
Proof.
  intros Hnone Hvalid Hid. unfold updateUserById, deleteUserById.
  rewrite Hvalid, Hid, (findByIdAndUpdate_absent _ _ _ Hnone),
    (findByIdAndRemove_absent _ _ Hnone).
  by split.
Qed.

Lemma update_absent_succeeds_delete_fails_witness :
  findById (path_id (request stranger_id stranger_id (rename "eve"))) registered = None /\
  verifyParams_updateUserById (rename "eve") = true /\
  updateUserById (request stranger_id stranger_id (rename "eve")) registered
    = (Respond 200 (Some (PUpdated None)), registered) /\
  deleteUserById (request stranger_id stranger_id tt) registered
    = (Throw 412 "无该用户", registered).
Proof.
  split; [reflexivity|]. split; [reflexivity|].
  apply (update_absent_succeeds_delete_fails
           (request stranger_id stranger_id (rename "eve"))
           (request stranger_id stranger_id tt) registered); reflexivity.
Defined.

(** A body that fails the rules ends [updateUserById] in 422 before any
    lookup, whether or not the id has a record. *)
Lemma updateUserById_refused (ctx : Ctx Patch) (s : Store) :
  verifyParams_updateUserById (request_body ctx) = false ->
  updateUserById ctx s = (Throw 422 "Validation Failed", s).
Proof. intros H. unfold updateUserById. by rewrite H. Qed.

(** The query [{ following: id }] selects the documents whose array holds
    the id. *)
Lemma followers_elem_of (id : Id) (s : Store) (u : User) :
  u ∈ List.filter (fun v => includes id (following v)) s <->
  u ∈ s /\ id ∈ following u.
Proof.
  rewrite !list_elem_of_In, filter_In, includes_elem_of.
  by rewrite !list_elem_of_In.
Qed.

(** C8, as the code has it. [getUserFollowers] answers 200 with exactly
    the users whose [following] holds the id the path is cast to, in store
    order; it does not look the id up, so it never ends in [ctx.throw],
    whether or not the id has a record. *)
Theorem getUserFollowers_exact {B} (ctx : Ctx B) (s : Store) :
  exists followers,
    getUserFollowers ctx s = (Respond 200 (Some (PFollowers followers)), s) /\
    (forall u, u ∈ followers <-> u ∈ s /\ path_id ctx ∈ following u) /\
    followers `sublist_of` s.
Proof.
  unfold getUserFollowers. eexists. split; [reflexivity|]. split.
  - intros u. apply followers_elem_of.
  - induction s as [|v s IH]; simpl; [constructor|].
    destruct (includes _ _); by constructor.
Qed.

(** C8, as the claim has it, fails: the id [5eaf00d] has no record and the
    answer is 200 with an empty list, not a 412. *)
Lemma getUserFollowers_no_NotFound :
  findById stranger_id registered = None /\
  getUserFollowers (request alice_id stranger_id tt) registered
    = (Respond 200 (Some (PFollowers [])), registered) /\
  (forall status message,
      fst (getUserFollowers (request alice_id stranger_id tt) registered)
        <> Throw status message).
Proof. repeat split. intros status message. discriminate. Qed.

Lemma findOne_name (n : string) (s : Store) :
  findOne (fun u => String.eqb (name u) n) s = None <-> n ∉ map name s.
Proof.
  unfold findOne. induction s as [|u s IH]; simpl.
  - split; [intros _; apply not_elem_of_nil | reflexivity].
  - rewrite not_elem_of_cons. destruct (String.eqb (name u) n) eqn:E.
    + apply String.eqb_eq in E. split; [discriminate | intros [H _]; congruence].
    + apply String.eqb_neq in E. rewrite IH. split; [intros H; split; congruence | tauto].
Qed.

Lemma nonempty_true (v : string) : nonempty v = true <-> v <> "".
Proof. unfold nonempty. rewrite negb_true_iff. apply String.eqb_neq. Qed.

Lemma verifyParams_addUser_valid (b : Patch) (n p : string) :
  p_name b = Some n -> p_password b = Some p -> n <> "" -> p <> "" ->
  verifyParams_addUser b = Some (n, p).
Proof.
  intros Hn Hp Hne Hpe. unfold verifyParams_addUser. rewrite Hn, Hp.
  apply nonempty_true in Hne, Hpe. by rewrite Hne, Hpe.
Qed.

Lemma verifyParams_valid (n p : string) :
  n <> "" -> p <> "" -> verifyParams (credentials n p) = Some (n, p).
Proof.
  intros Hne Hpe. unfold verifyParams. simpl.
  apply nonempty_true in Hne, Hpe. by rewrite Hne, Hpe.
Qed.

(** [addUser] with a name some record bears ends in 409 and writes nothing. *)
Lemma addUser_taken (oid : Id) (ctx : Ctx Patch) (s : Store) (n p : string) :
  p_name (request_body ctx) = Some n -> p_password (request_body ctx) = Some p ->
  n <> "" -> p <> "" -> n ∈ map name s ->
  addUser oid ctx s = (Throw 409 "用户名已存在", s).
Proof.
  intros Hn Hp Hne Hpe Hin. unfold addUser.
  rewrite (verifyParams_addUser_valid _ n p Hn Hp Hne Hpe).
  destruct (findOne _ s) eqn:E; [reflexivity|].
  apply findOne_name in E. contradiction.
Qed.

(** [addUser] keeps the names pairwise distinct. *)
Lemma addUser_names_NoDup (oid : Id) (ctx : Ctx Patch) (s : Store) :
  NoDup (map name s) -> NoDup (map name (snd (addUser oid ctx s))).
Proof.
  intros Hnd. unfold addUser, verifyParams_addUser.
  destruct (p_name (request_body ctx)) as [n|] eqn:Hn; [|exact Hnd].
  destruct (p_password (request_body ctx)) as [p|]; [|exact Hnd].
  destruct (nonempty n && nonempty p); [|exact Hnd].
  destruct (findOne _ s) eqn:E; [exact Hnd|]. simpl.
  apply findOne_name in E. rewrite map_app. simpl. rewrite Hn. simpl.
  apply NoDup_app. split; [exact Hnd|]. split; [|apply NoDup_singleton].
  intros x Hx Hx'. apply list_elem_of_singleton in Hx'. by subst x.
Qed.

Example createUser_then_duplicate :
  addUser alice_id (request "" "" (signup "alice" "pw")) []
    = (Respond 200 (Some (PAdded (new_User alice_id "alice" "pw"))),
       [new_User alice_id "alice" "pw"]) /\
  addUser alice2_id (request "" "" (signup "alice" "pw2"))
          [new_User alice_id "alice" "pw"]
    = (Throw 409 "用户名已存在", [new_User alice_id "alice" "pw"]).
Proof. by split. Qed.

(** C6, where the code departs from it. [addUser] refuses a taken name,
    [updateUserById] writes the name of the body without that test: bob,
    acting on his own record, takes the name alice, and the collection
    then holds two records named alice. *)
Theorem updateUserById_duplicates_name :
  reachable registered /\
  NoDup (map name registered) /\
  checkOwner updateUserById (request bob_id bob_id (rename "alice")) registered
    = (Respond 200 (Some (PUpdated (Some (new_User bob_id "bob" "right")))),
       [new_User alice_id "alice" "pw"; new_User bob_id "alice" "right"]) /\
  ~ NoDup (map name
             (snd (updateUserById (request bob_id bob_id (rename "alice")) registered))).
Proof.
  split; [exact registered_reachable|].
  split; [compute_done|].
  split; [reflexivity|].
  vm_compute. intros H. apply NoDup_cons in H as [H _]. apply H. by left.
Qed.

(** ** Credentials *)

Lemma login_reads_only (ctx : Ctx Credentials) (s : Store) : snd (login ctx s) = s.
Proof.
  unfold login. destruct (verifyParams _) as [[n p]|]; [|reflexivity].
  by destruct (findOne _ s).
Qed.

(** A missing or empty name or password ends [login] in 422 before any
    lookup. *)
Lemma login_refused (ctx : Ctx Credentials) (s : Store) :
  verifyParams (request_body ctx) = None ->
  login ctx s = (Throw 422 "Validation Failed", s).
Proof. intros H. unfold login. by rewrite H. Qed.

(** C5, as the code has it. With a name and a password that pass the
    rules, that is, both present and not empty, [login] ends in
    [ctx.throw(412)] exactly when no record bears both the name and the
    password; otherwise it answers 200 with a token for the first such
    record in store order, however many there are. The claims given to
    [jwt.sign] are that record's name and id under the keys [name] and
    [_id] and no other key, and the validity is [1d]. *)
Theorem login_contract (ctx : Ctx Credentials) (s : Store) (n p : string) :
  request_body ctx = credentials n p ->
  n <> "" ->
  p <> "" ->
  snd (login ctx s) = s /\
  (fst (login ctx s) = Throw 412 "用户名或密码错误" <->
   forall u, u ∈ s -> ~ (name u = n /\ password u = p)) /\
  (forall u,
      findOne (fun u => String.eqb (name u) n && String.eqb (password u) p) s = Some u ->
      u ∈ s /\ name u = n /\ password u = p /\
      fst (login ctx s) =
        Respond 200 (Some (PToken {| payload := [("name", n); ("_id", _id u)];
                                     expiresIn := "1d" |}))) /\
  ((exists u, u ∈ s /\ name u = n /\ password u = p) ->
   exists token, fst (login ctx s) = Respond 200 (Some (PToken token))) /\
  (forall token,
      fst (login ctx s) = Respond 200 (Some (PToken token)) ->
      map fst (payload token) = ["name"; "_id"] /\
      ("password" ∉ map fst (payload token)) /\
      expiresIn token = "1d").
Proof.
  intros Hb Hne Hpe. split; [apply login_reads_only|].
  unfold login. rewrite Hb, (verifyParams_valid n p Hne Hpe).
  destruct (findOne _ s) as [user|] eqn:E; unfold findOne in E; simpl.
  - apply find_some in E as [Hin Hm]. apply andb_true_iff in Hm as [Hn Hp].
    apply String.eqb_eq in Hn, Hp. apply list_elem_of_In in Hin.
    split; [|split; [|split]].
    + split; [discriminate|]. intros H. exfalso. by apply (H user Hin).
    + intros u [= <-]. rewrite Hn. by repeat split.
    + intros _. by eexists.
    + intros token [= <-]. simpl. repeat split. compute_done.
  - pose proof (find_none _ _ E) as Hnone.
    split; [|split; [|split]].
    + split; [|reflexivity]. intros _ u Hu [Hn Hp].
      apply list_elem_of_In in Hu. specialize (Hnone u Hu). simpl in Hnone.
      apply andb_false_iff in Hnone as [H | H]; apply String.eqb_neq in H; congruence.
    + discriminate.
    + intros (u & Hu & Hn & Hp). exfalso.
      apply list_elem_of_In in Hu. specialize (Hnone u Hu). simpl in Hnone.
      apply andb_false_iff in Hnone as [H | H]; apply String.eqb_neq in H; congruence.
    + discriminate.
Qed.

Lemma login_contract_witness :
  login (request "" "" (credentials "bob" "wrong")) registered
    = (Throw 412 "用户名或密码错误", registered) /\
  login (request "" "" (credentials "bob" "right")) registered
    = (Respond 200 (Some (PToken {| payload := [("name", "bob"); ("_id", bob_id)];
                                    expiresIn := "1d" |})), registered).
Proof.
  split; [reflexivity|].
  destruct (login_contract (request "" "" (credentials "bob" "right")) registered
              "bob" "right" eq_refl ltac:(discriminate) ltac:(discriminate))
    as (Hs & _ & Hfirst & _).
  destruct (Hfirst (new_User bob_id "bob" "right") eq_refl) as (_ & _ & _ & Hr).
  rewrite (surjective_pairing (login _ registered)), Hs, Hr. reflexivity.
Defined.

(** C5, as the claim has it, fails: two records bear the name bob and the
    password of the request, and [login] answers 200 with a token for the
    first of them instead of ending in 412. *)
Lemma login_ambiguous_succeeds :
  reachable two_bobs /\
  List.filter (fun u => String.eqb (name u) "bob" && String.eqb (password u) "right")
              two_bobs
    = [new_User bob_id "bob" "right"; new_User bobby_id "bob" "right"] /\
  login (request "" "" (credentials "bob" "right")) two_bobs
    = (Respond 200 (Some (PToken {| payload := [("name", "bob"); ("_id", bob_id)];
                                    expiresIn := "1d" |})), two_bobs) /\
  (forall status message,
      fst (login (request "" "" (credentials "bob" "right")) two_bobs)
        <> Throw status message).
Proof.
  split.
  { unfold two_bobs. do 2 apply reachable_step. exact registered_reachable. }
  repeat split. intros status message. discriminate.
Qed.

(** ** Field projection *)

Lemma split_cons (sep : ascii) (s : string) : exists w ws, split sep s = w :: ws.
Proof.
  destruct s as [|c rest]; simpl; [by eexists _, _|].
  destruct (Ascii.eqb c sep); [by eexists _, _|].
  destruct (split sep rest); by eexists _, _.
Qed.

Lemma join_cons (sep w w' : string) (ws : list string) :
  join sep (w :: w' :: ws) = w ++ sep ++ join sep (w' :: ws).
Proof. reflexivity. Qed.



(** A string without separator is its own single piece. *)
Lemma split_single (sep : ascii) (v : string) :
  all_chars (fun c => negb (Ascii.eqb c sep)) v = true -> split sep v = [v].
Proof.
  induction v as [|c rest IH]; simpl; [reflexivity|].
  intros H. apply andb_true_iff in H as [Hc Hrest].
  apply negb_true_iff in Hc. rewrite Hc, (IH Hrest). reflexivity.
Qed.

Lemma Boolean_true (v : string) : Boolean v = true <-> v <> "".
Proof.
  unfold Boolean. rewrite negb_true_iff. apply String.eqb_neq.
Qed.

Lemma requested_elem_of (fields_ v : string) :
  v ∈ requested fields_ <-> v ∈ split ";" fields_ /\ v <> "".
Proof.
  unfold requested. by rewrite !list_elem_of_In, filter_In, Boolean_true.
Qed.




(** ** Pagination *)

Lemma paging_integers (qu : Query) (p pp : Z) :
  times1 (page qu) 1 = Some (Num p) ->
  times1 (per_page qu) 2 = Some (Num pp) ->
  p <= 2 ^ 53 ->
  (Z.max p 1 - 1) * Z.max pp 1 <= 2 ^ 53 ->
  paging qu = Some (Num (Z.max pp 1), Num ((Z.max p 1 - 1) * Z.max pp 1)).
Proof.
  intros Hp Hpp Hb1 Hb2. unfold paging. rewrite Hpp, Hp. simpl.
  unfold safe.
  replace (Z.abs (Z.max p 1 - 1) <=? 2 ^ 53) with true
    by (symmetry; apply Z.leb_le; lia).
  simpl. unfold safe.
  replace (Z.abs ((Z.max p 1 - 1) * Z.max pp 1) <=? 2 ^ 53) with true
    by (symmetry; apply Z.leb_le; nia).
  reflexivity.
Qed.

(** C4, as the code has it. When [page * 1] and [per_page * 1] are the
    integers [p] and [pp] (the defaults 1 and 2 standing in for an absent
    value) and the product below is an exact double, then the limit handed
    to the store is [max pp 1], at least 1, the skip is
    [(max p 1 - 1) * max pp 1], at least 0, and the answer is 200 with the
    matching users from position skip on, no more than limit of them. *)
Theorem getAllUsers_pagination
  (RegExp_i : option string -> option (string -> bool))
  {B} (ctx : Ctx B) (s : Store) (test : string -> bool) (p pp : Z) :
  times1 (page (query ctx)) 1 = Some (Num p) ->
  times1 (per_page (query ctx)) 2 = Some (Num pp) ->
  p <= 2 ^ 53 ->
  (Z.max p 1 - 1) * Z.max pp 1 <= 2 ^ 53 ->
  RegExp_i (q (query ctx)) = Some test ->
  let limit := Z.max pp 1 in
  let skip := (Z.max p 1 - 1) * limit in
  let users :=
    take (Z.to_nat limit)
         (drop (Z.to_nat skip) (List.filter (fun u => test (name u)) s)) in
  1 <= limit /\ 0 <= skip /\
  (p <= 1 -> skip = 0) /\ (pp <= 1 -> limit = 1) /\
  paging (query ctx) = Some (Num limit, Num skip) /\
  getAllUsers RegExp_i ctx s = Some (Respond 200 (Some (PUsers users)), s) /\
  Z.of_nat (length users) <= limit.
Proof.
  intros Hp Hpp Hb1 Hb2 Hre limit skip users.
  split; [lia|]. split; [nia|]. split; [nia|]. split; [lia|].
  pose proof (paging_integers _ _ _ Hp Hpp Hb1 Hb2) as Hpg.
  split; [exact Hpg|]. split.
  - unfold getAllUsers. by rewrite Hpg, Hre.
  - pose proof (firstn_le_length (Z.to_nat limit)
                  (drop (Z.to_nat skip) (List.filter (fun u => test (name u)) s))).
    unfold users. lia.
Qed.

Example ToNumber_digits :
  ToNumber "0" = Some (Num 0) /\ ToNumber "1" = Some (Num 1) /\
  ToNumber "2" = Some (Num 2) /\ ToNumber "007" = Some (Num 7) /\
  ToNumber "-3" = Some (Num (-3)) /\ ToNumber "" = Some (Num 0).
Proof. by repeat split. Qed.

Example paging_scenarios :
  paging {| q := None; page := Some "1"; per_page := Some "2"; fields := None |}
    = Some (Num 2, Num 0) /\
  paging no_query = Some (Num 2, Num 0) /\
  paging {| q := None; page := Some "3"; per_page := Some "0"; fields := None |}
    = Some (Num 1, Num 2) /\
  paging {| q := None; page := Some "0"; per_page := Some "5"; fields := None |}
    = Some (Num 5, Num 0) /\
  paging {| q := None; page := Some "-4"; per_page := Some "-4"; fields := None |}
    = Some (Num 1, Num 0).
Proof. by repeat split. Qed.

Lemma getAllUsers_pagination_witness :
  getAllUsers (fun _ => Some (fun _ => true))
      {| params_id := ""; state_user := {| claim_name := ""; claim_id := "" |};
         query := {| q := None; page := Some "2"; per_page := Some "0";
                     fields := None |};
         request_body := tt |}
      two_bobs
    = Some (Respond 200 (Some (PUsers [new_User bob_id "bob" "right"])), two_bobs).
Proof.
  destruct (getAllUsers_pagination (fun _ => Some (fun _ => true))
      {| params_id := ""; state_user := {| claim_name := ""; claim_id := "" |};
         query := {| q := None; page := Some "2"; per_page := Some "0";
                     fields := None |};
         request_body := tt |}
      two_bobs (fun _ => true) 2 0 eq_refl eq_refl ltac:(vm_compute; discriminate)
      ltac:(vm_compute; discriminate) eq_refl) as (_ & _ & _ & _ & _ & H & _).
  exact H.
Defined.

(** C4, as the claim has it, fails: [per_page=abc] is coerced to [NaN], not
    to an integer, [Math.max(NaN, 1)] is [NaN], not 1, and the limit and the
    skip handed to the store are both [NaN]. *)
Lemma paging_not_clamped :
  ToNumber "abc" = Some NaN /\
  paging {| q := None; page := Some "1"; per_page := Some "abc"; fields := None |}
    = Some (NaN, NaN) /\
  (forall limit skip : Z,
      paging {| q := None; page := Some "1"; per_page := Some "abc"; fields := None |}
        <> Some (Num limit, Num skip)).
Proof. repeat split. intros limit skip. discriminate. Qed.

(** * Properties beyond the claims *)

(** ** More on the store *)

Lemma findById_is_Some (id : Id) (s : Store) :
  is_Some (findById id s) <-> id ∈ map _id s.
Proof.
  unfold findById. induction s as [|u s IH]; simpl.
  - split; [intros [? [=]] | intros H; by apply elem_of_nil in H].
  - rewrite elem_of_cons. destruct (String.eqb (_id u) id) eqn:E.
    + apply String.eqb_eq in E. split; [intros _; by left | by eexists].
    + apply String.eqb_neq in E. rewrite IH. split; [tauto|].
      intros [H|H]; [congruence | exact H].
Qed.

Lemma save_ids (doc : User) (s : Store) : map _id (save doc s) = map _id s.
Proof.
  induction s as [|u s IH]; simpl; [reflexivity|].
  destruct (String.eqb (_id u) (_id doc)) eqn:E; simpl.
  - apply String.eqb_eq in E. by rewrite E.
  - by rewrite IH.
Qed.

Lemma save_elem_of (doc u : User) (s : Store) :
  u ∈ save doc s -> u = doc \/ u ∈ s.
Proof.
  induction s as [|v s IH]; simpl; [intros H; by right|].
  destruct (String.eqb (_id v) (_id doc)); rewrite !elem_of_cons; [tauto|].
  intros [H|H]; [by right; left|]. destruct (IH H); [by left | by right; right].
Qed.

(** Saving a document changes no field on which it agrees with the
    stored one. *)
Lemma save_map {A} (f : User -> A) (doc me : User) (s : Store) :
  findById (_id doc) s = Some me -> f doc = f me ->
  map f (save doc s) = map f s.
Proof.
  unfold findById. intros Hme Hf. induction s as [|u s IH]; simpl in *; [reflexivity|].
  destruct (String.eqb (_id u) (_id doc)); simpl.
  - injection Hme as ->. by rewrite Hf.
  - by rewrite (IH Hme).
Qed.

Lemma save_unchanged (me : User) (s : Store) :
  findById (_id me) s = Some me -> save me s = s.
Proof.
  unfold findById. induction s as [|u s IH]; simpl; [reflexivity|].
  destruct (String.eqb (_id u) (_id me)).
  - by intros [= ->].
  - intros H. by rewrite (IH H).
Qed.

Lemma save_save (a b : User) (s : Store) :
  _id a = _id b -> save a (save b s) = save a s.
Proof.
  intros Hid. induction s as [|u s IH]; simpl; [reflexivity|].
  rewrite <- Hid. destruct (String.eqb (_id u) (_id a)) eqn:E; simpl.
  - by rewrite <- Hid, String.eqb_refl.
  - by rewrite E, IH.
Qed.

Lemma findByIdAndRemove_present (id : Id) (s : Store) (u : User) :
  findById id s = Some u ->
  exists s',
    findByIdAndRemove id s = (Some u, s') /\
    s ≡ₚ u :: s' /\
    (forall id', id' <> id -> findById id' s' = findById id' s).
Proof.
  unfold findById. induction s as [|v s IH]; simpl; [discriminate|].
  destruct (String.eqb (_id v) id) eqn:E.
  - intros [= ->]. exists s. split; [reflexivity|]. split; [reflexivity|].
    intros id' Hne. apply String.eqb_eq in E.
    assert (String.eqb (_id u) id' = false) as -> by (apply String.eqb_neq; congruence).
    reflexivity.
  - intros H. destruct (IH H) as (s' & -> & Hp & Hf). exists (v :: s').
    split; [reflexivity|]. split.
    + rewrite Hp. apply Permutation_swap.
    + intros id' Hne. simpl. by rewrite (Hf id' Hne).
Qed.

Lemma findByIdAndRemove_other (id : Id) (s : Store) (v : User) :
  _id v <> id -> v ∈ snd (findByIdAndRemove id s) <-> v ∈ s.
Proof.
  intros Hne. induction s as [|u s IH]; simpl; [reflexivity|].
  destruct (String.eqb (_id u) id) eqn:E; simpl.
  - apply String.eqb_eq in E. rewrite elem_of_cons.
    split; [by right | intros [-> | H]; [congruence | exact H]].
  - destruct (findByIdAndRemove id s) as [r s']. simpl in *.
    by rewrite !elem_of_cons, IH.
Qed.

Lemma findByIdAndUpdate_present (id : Id) (p : Patch) (s : Store) (u : User) :
  findById id s = Some u ->
  exists s',
    findByIdAndUpdate id p s = (Some u, s') /\
    findById id s' = Some (merge u p) /\
    (forall id', id' <> id -> findById id' s' = findById id' s) /\
    map _id s' = map _id s /\
    (p_following p = None -> map following s' = map following s) /\
    (p_followingTopics p = None -> map followingTopics s' = map followingTopics s).
Proof.
  unfold findById. induction s as [|v s IH]; simpl; [discriminate|].
  destruct (String.eqb (_id v) id) eqn:E.
  - intros [= ->]. exists (merge u p :: s). simpl. rewrite E.
    split; [reflexivity|]. split; [reflexivity|]. split.
    { intros id' Hne. apply String.eqb_eq in E.
      assert (String.eqb (_id u) id' = false) as -> by (apply String.eqb_neq; congruence).
      reflexivity. }
    split; [reflexivity|]. split; intros ->; reflexivity.
  - intros H. destruct (IH H) as (s' & -> & Hm & Hf & H1 & H2 & H3).
    exists (v :: s'). simpl. rewrite E, H1.
    split; [reflexivity|]. split; [exact Hm|]. split.
    { intros id' Hne. by rewrite (Hf id' Hne). }
    split; [reflexivity|]. split; intros Hp; [by rewrite H2 | by rewrite H3].
Qed.

(** ** Deleting and updating a record *)

Lemma deleteUserById_store {B} (ctx : Ctx B) (s : Store) :
  snd (deleteUserById ctx s) = snd (findByIdAndRemove (path_id ctx) s).
Proof.
  unfold deleteUserById. by destruct (findByIdAndRemove _ s) as [[u|] s'].
Qed.

(** X1. [deleteUserById] on an id that has a record, the ids being
    pairwise distinct, answers 204 and takes exactly that record away:
    the id no longer resolves, every other id resolves as before, a
    second deletion ends in 412, and a request still carrying the deleted
    user's token ends [follow] in an uncaught [TypeError]. *)
Theorem deleteUserById_removes {B} (ctx : Ctx B) (s : Store) (u : User) :
  findById (path_id ctx) s = Some u ->
  NoDup (map _id s) ->
  fst (deleteUserById ctx s) = Respond 204 None /\
  s ≡ₚ u :: snd (deleteUserById ctx s) /\
  findById (path_id ctx) (snd (deleteUserById ctx s)) = None /\
  (forall id', id' <> path_id ctx ->
     findById id' (snd (deleteUserById ctx s)) = findById id' s) /\
  deleteUserById ctx (snd (deleteUserById ctx s))
    = (Throw 412 "无该用户", snd (deleteUserById ctx s)) /\
  (forall ctx' : Ctx B,
     acting_id ctx' = path_id ctx ->
     follow ctx' (snd (deleteUserById ctx s))
       = (Uncaught TypeError, snd (deleteUserById ctx s))).
Proof.
  intros Hu Hnd.
  destruct (findByIdAndRemove_present _ _ _ Hu) as (s' & Hrm & Hperm & Hframe).
  assert (deleteUserById ctx s = (Respond 204 None, s')) as Hdel
    by (unfold deleteUserById; by rewrite Hrm).
  rewrite Hdel. simpl.
  assert (findById (path_id ctx) s' = None) as Hgone.
  { destruct (findById (path_id ctx) s') as [v|] eqn:Hv; [exfalso | reflexivity].
    assert (path_id ctx ∈ map _id s') as Hin
      by (apply findById_is_Some; rewrite Hv; by eexists).
    apply (Permutation_map _id) in Hperm. simpl in Hperm.
    rewrite Hperm in Hnd. apply NoDup_cons in Hnd as [Hnin _].
    destruct (findById_id _ _ _ Hu) as [Hid _]. rewrite Hid in Hnin. contradiction. }
  split; [reflexivity|]. split; [exact Hperm|]. split; [exact Hgone|].
  split; [exact Hframe|]. split.
  - unfold deleteUserById. by rewrite (findByIdAndRemove_absent _ _ Hgone).
  - intros ctx' Hid. unfold follow. by rewrite Hid, Hgone.
Qed.

Lemma deleteUserById_removes_witness :
  deleteUserById (request bob_id bob_id tt) registered
    = (Respond 204 None, [new_User alice_id "alice" "pw"]) /\
  deleteUserById (request bob_id bob_id tt) [new_User alice_id "alice" "pw"]
    = (Throw 412 "无该用户", [new_User alice_id "alice" "pw"]) /\
  follow (request bob_id alice_id tt) [new_User alice_id "alice" "pw"]
    = (Uncaught TypeError, [new_User alice_id "alice" "pw"]).
Proof.
  assert (NoDup (map _id registered)) as Hnd.
  { apply (bool_decide_unpack _). vm_compute. exact I. }
  destruct (deleteUserById_removes (request bob_id bob_id tt) registered
              (new_User bob_id "bob" "right") eq_refl Hnd)
    as (_ & _ & _ & _ & Hagain & Hstale).
  split; [reflexivity|]. split; [exact Hagain|].
  exact (Hstale (request bob_id alice_id tt) eq_refl).
Defined.

(** X2. Deletion does not cascade: whatever the deleted id, the other
    users whose [following] holds it are listed as its followers after
    the deletion exactly as before. *)
Theorem deleteUserById_no_cascade {B} (ctx : Ctx B) (s : Store) :
  exists followers,
    getUserFollowers ctx (snd (deleteUserById ctx s))
      = (Respond 200 (Some (PFollowers followers)), snd (deleteUserById ctx s)) /\
    (forall v, _id v <> path_id ctx ->
       v ∈ followers <-> v ∈ s /\ path_id ctx ∈ following v).
Proof.
  eexists. split; [reflexivity|]. intros v Hne.
  by rewrite followers_elem_of, deleteUserById_store, findByIdAndRemove_other.
Qed.

(** X3. [updateUserById] on an id that has a record, with a body that
    passes the rules, answers 200 with the record as it was, and stores
    the record merged with the body under the same id; every other id
    resolves as before and no record changes its id. A body without the
    key [following] leaves the [following] of every record as it is, and
    likewise for [followingTopics]; a body with the key replaces the
    array of that record by the ids it is cast to. *)
Theorem updateUserById_merges (ctx : Ctx Patch) (s : Store) (u : User) :
  findById (path_id ctx) s = Some u ->
  verifyParams_updateUserById (request_body ctx) = true ->
  fst (updateUserById ctx s) = Respond 200 (Some (PUpdated (Some u))) /\
  findById (path_id ctx) (snd (updateUserById ctx s))
    = Some (merge u (request_body ctx)) /\
  (forall id', id' <> path_id ctx ->
     findById id' (snd (updateUserById ctx s)) = findById id' s) /\
  map _id (snd (updateUserById ctx s)) = map _id s /\
  (p_following (request_body ctx) = None ->
   map following (snd (updateUserById ctx s)) = map following s) /\
  (p_followingTopics (request_body ctx) = None ->
   map followingTopics (snd (updateUserById ctx s)) = map followingTopics s) /\
  (forall ids, p_following (request_body ctx) = Some ids ->
     following (merge u (request_body ctx)) = map cast ids).
Proof.
  intros Hu Hvalid.
  destruct (findByIdAndUpdate_present _ (request_body ctx) _ _ Hu)
    as (s' & Hup & Hm & Hf & Hi & Hfo & Hft).
  unfold updateUserById. rewrite Hvalid, Hup. simpl.
  repeat split; try assumption. intros ids Hids. by rewrite Hids.
Qed.

Lemma updateUserById_merges_witness :
  findById (path_id (request alice_id alice_id (rename "alicia"))) alice_follows_bob
    = Some (set_following (new_User alice_id "alice" "pw") [bob_id]) /\
  verifyParams_updateUserById (rename "alicia") = true /\
  findById alice_id
    (snd (updateUserById (request alice_id alice_id (rename "alicia")) alice_follows_bob))
    = Some (merge (set_following (new_User alice_id "alice" "pw") [bob_id])
                  (rename "alicia")) /\
  map following
    (snd (updateUserById (request alice_id alice_id (rename "alicia")) alice_follows_bob))
    = map following alice_follows_bob.
Proof.
  split; [reflexivity|]. split; [reflexivity|].
  destruct (updateUserById_merges (request alice_id alice_id (rename "alicia"))
              alice_follows_bob _ eq_refl eq_refl) as (_ & Hm & _ & _ & Hf & _).
  split; [exact Hm | exact (Hf eq_refl)].
Defined.

Lemma updateUserById_frame (ctx : Ctx Patch) (s : Store) (id : Id) :
  id <> path_id ctx ->
  findById id (snd (updateUserById ctx s)) = findById id s.
Proof.
  intros Hne. unfold updateUserById.
  destruct (verifyParams_updateUserById _); [|reflexivity].
  destruct (findById (path_id ctx) s) as [u|] eqn:Hu.
  - destruct (findByIdAndUpdate_present _ (request_body ctx) _ _ Hu)
      as (s' & -> & _ & Hf & _). by apply Hf.
  - by rewrite (findByIdAndUpdate_absent _ _ _ Hu).
Qed.

Lemma deleteUserById_frame {B} (ctx : Ctx B) (s : Store) (id : Id) :
  id <> path_id ctx ->
  findById id (snd (deleteUserById ctx s)) = findById id s.
Proof.
  intros Hne. rewrite deleteUserById_store.
  destruct (findById (path_id ctx) s) as [u|] eqn:Hu.
  - destruct (findByIdAndRemove_present _ _ _ Hu) as (s' & -> & _ & Hf). by apply Hf.
  - by rewrite (findByIdAndRemove_absent _ _ Hu).
Qed.

(** X4. Behind [checkOwner], [updateUserById] and [deleteUserById] write
    the acting user's record only: every id other than the one of the
    session token resolves afterwards as it did before. *)
Theorem checkOwner_confines
  {B} (ctx : Ctx Patch) (ctx' : Ctx B) (s : Store) (id : Id) :
  id <> acting_id ctx ->
  id <> acting_id ctx' ->
  findById id (snd (checkOwner updateUserById ctx s)) = findById id s /\
  findById id (snd (checkOwner deleteUserById ctx' s)) = findById id s.
Proof.
  intros Hne Hne'. unfold checkOwner. split.
  - destruct (String.eqb (params_id ctx) (claim_id (state_user ctx))) eqn:E;
      simpl; [|reflexivity].
    apply String.eqb_eq in E. apply updateUserById_frame.
    unfold path_id. rewrite E. exact Hne.
  - destruct (String.eqb (params_id ctx') (claim_id (state_user ctx'))) eqn:E;
      simpl; [|reflexivity].
    apply String.eqb_eq in E. apply deleteUserById_frame.
    unfold path_id. rewrite E. exact Hne'.
Qed.

Lemma checkOwner_confines_witness :
  findById alice_id
    (snd (checkOwner updateUserById (request bob_id bob_id (rename "eve")) registered))
    = Some (new_User alice_id "alice" "pw") /\
  findById alice_id
    (snd (checkOwner deleteUserById (request bob_id alice_id tt) registered))
    = Some (new_User alice_id "alice" "pw").
Proof.
  assert (alice_id <> bob_id) as Hne by (unfold bob_id, alice_id; discriminate).
  destruct (checkOwner_confines (request bob_id bob_id (rename "eve"))
              (request bob_id alice_id tt) registered alice_id Hne Hne) as [H1 H2].
  split; [exact H1 | exact H2].
Defined.

(** ** Registering *)

Lemma find_app {A} (f : A -> bool) (l k : list A) :
  find f (l ++ k) = match find f l with Some x => Some x | None => find f k end.
Proof.
  induction l as [|x l IH]; simpl; [reflexivity|]. by destruct (f x).
Qed.

Lemma find_none_name (n p : string) (s : Store) :
  n ∉ map name s ->
  find (fun u => String.eqb (name u) n && String.eqb (password u) p) s = None.
Proof.
  induction s as [|u s IH]; simpl; [reflexivity|].
  rewrite not_elem_of_cons. intros [Hne Hs].
  assert (String.eqb (name u) n = false) as -> by (apply String.eqb_neq; congruence).
  simpl. by apply IH.
Qed.

Lemma addUser_free (oid : Id) (ctx : Ctx Patch) (s : Store) (n p : string) :
  p_name (request_body ctx) = Some n -> p_password (request_body ctx) = Some p ->
  n <> "" -> p <> "" -> n ∉ map name s ->
  addUser oid ctx s
    = (Respond 200 (Some (PAdded (merge (new_User oid n p) (request_body ctx)))),
       s ++ [merge (new_User oid n p) (request_body ctx)])%list.
Proof.
  intros Hn Hp Hne Hpe Hfree. unfold addUser.
  rewrite (verifyParams_addUser_valid _ n p Hn Hp Hne Hpe).
  apply findOne_name in Hfree. by rewrite Hfree.
Qed.

(** X5. Registering and then logging in. [addUser] with a name and a
    password that are not empty, the name borne by no record, answers 200
    and appends the new record, built from the keys of the body; [login]
    with the same name and password then answers 200 with a token for the
    new record's id; and a further [addUser] with that name, whatever the
    non-empty password, ends in 409 and writes nothing. *)
Theorem addUser_then_login
  (oid : Id) (ctx : Ctx Patch) (c : Ctx Credentials) (s : Store) (n p : string) :
  p_name (request_body ctx) = Some n ->
  p_password (request_body ctx) = Some p ->
  request_body c = credentials n p ->
  n <> "" ->
  p <> "" ->
  n ∉ map name s ->
  addUser oid ctx s
    = (Respond 200 (Some (PAdded (merge (new_User oid n p) (request_body ctx)))),
       s ++ [merge (new_User oid n p) (request_body ctx)])%list /\
  login c (snd (addUser oid ctx s))
    = (Respond 200 (Some (PToken {| payload := [("name", n); ("_id", oid)];
                                    expiresIn := "1d" |})),
       snd (addUser oid ctx s)) /\
  (forall oid' (ctx' : Ctx Patch) p',
     p_name (request_body ctx') = Some n ->
     p_password (request_body ctx') = Some p' ->
     p' <> "" ->
     addUser oid' ctx' (snd (addUser oid ctx s))
       = (Throw 409 "用户名已存在", snd (addUser oid ctx s))).
Proof.
  intros Hn Hp Hc Hne Hpe Hfree.
  rewrite (addUser_free oid ctx s n p Hn Hp Hne Hpe Hfree). simpl.
  split; [reflexivity|]. split.
  - unfold login, findOne. rewrite Hc, (verifyParams_valid n p Hne Hpe).
    rewrite find_app, (find_none_name n p s Hfree). simpl.
    rewrite Hn, Hp. simpl. rewrite !String.eqb_refl. simpl.
    unfold jwt_sign. by rewrite ?Hn.
  - intros oid' ctx' p' Hn' Hp' Hpe'.
    apply (addUser_taken oid' ctx' _ n p' Hn' Hp' Hne Hpe').
    rewrite map_app. apply elem_of_app. right. simpl. rewrite Hn. by left.
Qed.

Lemma addUser_then_login_witness :
  ("carol" ∉ map name registered) /\
  login (request "" "" (credentials "carol" "s3cret"))
        (snd (addUser alice2_id
                (request "" "" (signup_following "carol" "s3cret" [upper_bob_id]))
                registered))
    = (Respond 200 (Some (PToken {| payload := [("name", "carol"); ("_id", alice2_id)];
                                    expiresIn := "1d" |})),
       snd (addUser alice2_id
              (request "" "" (signup_following "carol" "s3cret" [upper_bob_id]))
              registered)).
Proof.
  assert ("carol" ∉ map name registered) as Hn.
  { apply (bool_decide_unpack _). vm_compute. exact I. }
  split; [exact Hn|].
  destruct (addUser_then_login alice2_id
              (request "" "" (signup_following "carol" "s3cret" [upper_bob_id]))
              (request "" "" (credentials "carol" "s3cret"))
              registered "carol" "s3cret" eq_refl eq_refl eq_refl
              ltac:(discriminate) ltac:(discriminate) Hn) as (_ & H & _).
  exact H.
Defined.

Lemma findById_app_fresh (id : Id) (s : Store) (u : User) :
  id ∉ map _id s -> _id u = id -> findById id (s ++ [u])%list = Some u.
Proof.
  intros Hn Hid. unfold findById. rewrite find_app.
  destruct (find _ s) as [v|] eqn:E.
  - exfalso. apply Hn. apply findById_is_Some. unfold findById. rewrite E. by eexists.
  - simpl. by rewrite Hid, String.eqb_refl.
Qed.

(** X6. Registering and then reading. When the name and the password are
    not empty, the name is free and the id the store assigns is new, the
    record [addUser] appended is the one [getUserById] answers for that
    id, with nothing revealed or expanded when no [fields] are asked and
    the store populates no path without error; and when the body had no
    key [following], [listFollowing] answers the empty list for it. *)
Theorem addUser_then_getUserById
  {B} (populates : string -> User -> bool)
  (oid : Id) (ctx : Ctx Patch) (c : Ctx B) (s : Store) (n p : string) :
  p_name (request_body ctx) = Some n ->
  p_password (request_body ctx) = Some p ->
  n <> "" ->
  p <> "" ->
  n ∉ map name s ->
  oid ∉ map _id s ->
  path_id c = oid ->
  fields (query c) = None ->
  populates "" (merge (new_User oid n p) (request_body ctx)) = true ->
  getUserById populates c (snd (addUser oid ctx s))
    = (Respond 200
         (Some (PProjected (merge (new_User oid n p) (request_body ctx)) "" "")),
       snd (addUser oid ctx s)) /\
  (p_following (request_body ctx) = None ->
   listFollowing c (snd (addUser oid ctx s))
     = (Respond 200 (Some (PUsers [])), snd (addUser oid ctx s))).
Proof.
  intros Hn Hp Hne Hpe Hfree Hoid Hc Hf Hpop.
  rewrite (addUser_free oid ctx s n p Hn Hp Hne Hpe Hfree). simpl.
  unfold getUserById, listFollowing.
  rewrite Hc, Hf,
    (findById_app_fresh oid s (merge (new_User oid n p) (request_body ctx))
       Hoid eq_refl). simpl.
  change (popluateFields "") with "". rewrite Hpop.
  split; [reflexivity|]. intros Hfo. unfold populate_following. simpl.
  by rewrite Hfo.
Qed.

Lemma addUser_then_getUserById_witness :
  getUserById sample_populates (request "" alice2_id tt)
     (snd (addUser alice2_id (request "" "" (signup "carol" "s3cret")) registered))
    = (Respond 200 (Some (PProjected (new_User alice2_id "carol" "s3cret") "" "")),
       snd (addUser alice2_id (request "" "" (signup "carol" "s3cret")) registered)).
Proof.
  assert ("carol" ∉ map name registered) as Hn.
  { apply (bool_decide_unpack _). vm_compute. exact I. }
  assert (alice2_id ∉ map _id registered) as Hi.
  { apply (bool_decide_unpack _). vm_compute. exact I. }
  destruct (addUser_then_getUserById sample_populates alice2_id
              (request "" "" (signup "carol" "s3cret"))
              (request "" alice2_id tt)
              registered "carol" "s3cret" eq_refl eq_refl
              ltac:(discriminate) ltac:(discriminate) Hn Hi eq_refl eq_refl eq_refl)
    as [H _].
  exact H.
Defined.

(** X7. A deleted account cannot log in. When the names of the collection
    are pairwise distinct and the id has a record, then after
    [deleteUserById] a [login] with that record's name, the name and the
    password of the request not being empty, ends in 412. *)
Theorem deleted_cannot_login
  {B} (ctx : Ctx B) (c : Ctx Credentials) (s : Store) (u : User) (p : string) :
  findById (path_id ctx) s = Some u ->
  NoDup (map name s) ->
  request_body c = credentials (name u) p ->
  name u <> "" ->
  p <> "" ->
  fst (login c (snd (deleteUserById ctx s))) = Throw 412 "用户名或密码错误".
Proof.
  intros Hu Hnd Hc Hne Hpe. rewrite deleteUserById_store.
  destruct (findByIdAndRemove_present _ _ _ Hu) as (s' & -> & Hperm & _). simpl.
  apply (Permutation_map name) in Hperm. simpl in Hperm.
  rewrite Hperm in Hnd. apply NoDup_cons in Hnd as [Hnin _].
  unfold login, findOne. rewrite Hc, (verifyParams_valid _ p Hne Hpe).
  by rewrite (find_none_name _ p s' Hnin).
Qed.

Lemma deleted_cannot_login_witness :
  NoDup (map name registered) /\
  fst (login (request "" "" (credentials "bob" "right"))
         (snd (deleteUserById (request bob_id upper_bob_id tt) registered)))
    = Throw 412 "用户名或密码错误".
Proof.
  assert (NoDup (map name registered)) as Hnd.
  { apply (bool_decide_unpack _). vm_compute. exact I. }
  split; [exact Hnd|].
  exact (deleted_cannot_login (request bob_id upper_bob_id tt)
           (request "" "" (credentials "bob" "right")) registered
           (new_User bob_id "bob" "right") "right" eq_refl Hnd eq_refl
           ltac:(discriminate) ltac:(discriminate)).
Defined.
(** ** More on the relationship graph *)

Lemma set_edges_id (k : EdgeKind) (u : User) (l : list Id) :
  _id (set_edges k u l) = _id u.
Proof. by destruct k. Qed.

Lemma edges_set_edges (k : EdgeKind) (u : User) (l : list Id) :
  edges k (set_edges k u l) = l.
Proof. by destruct k. Qed.

Lemma set_edges_twice (k : EdgeKind) (u : User) (l l' : list Id) :
  set_edges k (set_edges k u l) l' = set_edges k u l'.
Proof. by destruct k. Qed.

Lemma set_edges_same (k : EdgeKind) (u : User) : set_edges k u (edges k u) = u.
Proof. by destruct k, u. Qed.

Lemma add_exact {B} (k : EdgeKind) (ctx : Ctx B) (s : Store) (me : User) :
  findById (acting_id ctx) s = Some me ->
  add k ctx s =
    (Respond 204 None,
     if includes (params_id ctx) (edges k me) then s
     else save (set_edges k me (push (edges k me) (path_id ctx))) s).
Proof.
  intros Hme. destruct k; simpl; unfold follow, followingTopic;
    rewrite Hme, map_toString; by destruct (includes _ _).
Qed.

Lemma remove_exact {B} (k : EdgeKind) (ctx : Ctx B) (s : Store) (me : User) :
  findById (acting_id ctx) s = Some me ->
  remove k ctx s =
    (Respond 204 None,
     if indexOf (params_id ctx) (edges k me) >? -1
     then save (set_edges k me
                  (splice (indexOf (params_id ctx) (edges k me)) 1 (edges k me))) s
     else s).
Proof.
  intros Hme. destruct k; simpl; unfold unfollow, unfollowingTopic;
    rewrite Hme, map_toString; simpl; by destruct (_ >? _).
Qed.

Lemma indexOf_from_push (x : Id) (l : list Id) (i : Z) :
  x ∉ l -> indexOf_from x (push l x) i = i + Z.of_nat (length l).
Proof.
  revert i. induction l as [|y l IH]; intros i; simpl.
  - intros _. rewrite String.eqb_refl. lia.
  - rewrite not_elem_of_cons. intros [Hne Hl].
    assert (String.eqb y x = false) as -> by (apply String.eqb_neq; congruence).
    unfold push in IH. rewrite (IH (i + 1) Hl). lia.
Qed.

Lemma splice_indexOf_push (x : Id) (l : list Id) :
  x ∉ l ->
  (indexOf x (push l x) >? -1) = true /\
  splice (indexOf x (push l x)) 1 (push l x) = l.
Proof.
  intros Hout. unfold indexOf. rewrite (indexOf_from_push x l 0 Hout).
  rewrite Z.add_0_l. split; [apply Z.gtb_lt; lia|].
  rewrite splice_one. unfold push.
  by rewrite (delete_middle l [] x), app_nil_r.
Qed.

(** X8. Following and then unfollowing is a round trip, for a path id
    in canonical form. When the path spells the id as the store does
    (the cast leaves it as it is) and the acting user has a record that
    does not yet hold it, [remove] after [add] (for users and for topics)
    answers 204 and gives back the collection exactly as it was before
    the [add]. *)
Theorem add_then_remove_restores
  {B} (k : EdgeKind) (ctx : Ctx B) (s : Store) (me : User) :
  findById (acting_id ctx) s = Some me ->
  path_id ctx = params_id ctx ->
  params_id ctx ∉ edges k me ->
  remove k ctx (snd (add k ctx s)) = (Respond 204 None, s).
Proof.
  intros Hme Hc Hout. destruct (findById_id _ _ _ Hme) as [Hid _].
  rewrite (add_exact k ctx s me Hme), Hc.
  apply includes_false in Hout as Hinc. rewrite Hinc. simpl.
  pose proof (save_owner _ me (set_edges k me (push (edges k me) (params_id ctx)))
                s Hme (set_edges_id _ _ _)) as Hme1.
  rewrite (remove_exact k ctx _ _ Hme1), edges_set_edges.
  destruct (splice_indexOf_push _ _ Hout) as [-> ->].
  rewrite set_edges_twice, set_edges_same.
  rewrite save_save by (symmetry; apply set_edges_id).
  rewrite save_unchanged; [reflexivity | by rewrite Hid].
Qed.

Lemma add_then_remove_restores_witness :
  path_id (request alice_id bobby_id tt) = bobby_id /\
  (bobby_id ∉ edges FollowingUsers
                (set_following (new_User alice_id "alice" "pw") [bob_id])) /\
  unfollow (request alice_id bobby_id tt)
           (snd (follow (request alice_id bobby_id tt) alice_follows_bob))
    = (Respond 204 None, alice_follows_bob).
Proof.
  assert (bobby_id ∉ edges FollowingUsers
                     (set_following (new_User alice_id "alice" "pw") [bob_id])) as Hout.
  { apply (bool_decide_unpack _). vm_compute. exact I. }
  split; [reflexivity|]. split; [exact Hout|].
  exact (add_then_remove_restores FollowingUsers (request alice_id bobby_id tt)
           alice_follows_bob _ eq_refl eq_refl Hout).
Defined.

(** With another spelling of the id the round trip fails: [follow] under
    the upper-case spelling of bob's id stores his id, and [unfollow]
    under the same spelling does not find it. *)
Remark follow_unfollow_respelled :
  unfollow (request alice_id upper_bob_id tt)
           (snd (follow (request alice_id upper_bob_id tt) registered))
    = (Respond 204 None, alice_follows_bob).
Proof. reflexivity. Qed.

(** X9. Unfollowing and then following again keeps the set but not the
    order, for a path id in canonical form. When the path spells the id
    as the store does, the acting user's edge set holds it, and holds no
    id twice, then after [remove] and [add] the edge set is a permutation
    of the one before: the target has moved to the end. *)
Theorem remove_then_add_permutes
  {B} (k : EdgeKind) (ctx : Ctx B) (s : Store) (me : User) :
  findById (acting_id ctx) s = Some me ->
  path_id ctx = params_id ctx ->
  params_id ctx ∈ edges k me ->
  NoDup (edges k me) ->
  exists l,
    edgeSet k (acting_id ctx)
      (snd (add k ctx (snd (remove k ctx s)))) = Some (push l (params_id ctx)) /\
    push l (params_id ctx) ≡ₚ edges k me /\
    (params_id ctx ∉ l).
Proof.
  intros Hme Hc Hin Hnd.
  destruct (remove_cases k ctx s me Hme)
    as [[Hout _] | (n & me1 & Hl & -> & Hid1 & Hk1 & _)]; [contradiction|].
  simpl.
  assert (findById (acting_id ctx) (save me1 s) = Some me1) as Hme1
    by (by apply (save_owner _ me)).
  assert (params_id ctx ∉ edges k me1) as Hout1
    by (rewrite Hk1; by apply delete_only_occurrence).
  destruct (add_cases k ctx _ me1 Hme1)
    as [[Hin1 _] | (_ & me2 & -> & Hid2 & Hk2 & _)]; [contradiction|].
  simpl. exists (delete n (edges k me)). unfold edgeSet.
  rewrite (save_owner _ me1 me2 _ Hme1 Hid2). simpl.
  rewrite Hk2, Hk1, Hc. split; [reflexivity|]. split.
  - unfold push. rewrite (delete_Permutation _ _ _ Hl) at 2.
    by rewrite Permutation_app_comm.
  - by rewrite <- Hk1.
Qed.

Lemma remove_then_add_permutes_witness :
  edgeSet FollowingUsers alice_id alice_follows_two = Some [bob_id; bobby_id] /\
  edgeSet FollowingUsers alice_id
    (snd (follow (request alice_id bob_id tt)
            (snd (unfollow (request alice_id bob_id tt) alice_follows_two))))
    = Some [bobby_id; bob_id] /\
  exists l,
    edgeSet FollowingUsers (acting_id (request alice_id bob_id tt))
      (snd (follow (request alice_id bob_id tt)
              (snd (unfollow (request alice_id bob_id tt) alice_follows_two))))
      = Some (push l bob_id) /\
    push l bob_id ≡ₚ [bob_id; bobby_id] /\ (bob_id ∉ l).
Proof.
  split; [reflexivity|]. split; [reflexivity|].
  apply (remove_then_add_permutes FollowingUsers (request alice_id bob_id tt)
           alice_follows_two
           (set_following (new_User alice_id "alice" "pw") [bob_id; bobby_id])
           eq_refl eq_refl).
  - apply list_elem_of_here.
  - apply (bool_decide_unpack _). vm_compute. exact I.
Defined.

(** A relationship handler leaves every field apart from its own edge
    kind as it is, in every record and in store order. *)
Lemma add_map {B A} (f : User -> A) (k : EdgeKind) (ctx : Ctx B) (s : Store) :
  (forall u l, f (set_edges k u l) = f u) ->
  map f (snd (add k ctx s)) = map f s.
Proof.
  intros Hf. destruct (findById (acting_id ctx) s) as [me|] eqn:Hme.
  - rewrite (add_exact k ctx s me Hme). simpl.
    destruct (includes _ _); [reflexivity|].
    apply (save_map f _ me); [|apply Hf].
    rewrite set_edges_id. destruct (findById_id _ _ _ Hme) as [-> _]. exact Hme.
  - destruct k; simpl; unfold follow, followingTopic; by rewrite Hme.
Qed.

Lemma remove_map {B A} (f : User -> A) (k : EdgeKind) (ctx : Ctx B) (s : Store) :
  (forall u l, f (set_edges k u l) = f u) ->
  map f (snd (remove k ctx s)) = map f s.
Proof.
  intros Hf. destruct (findById (acting_id ctx) s) as [me|] eqn:Hme.
  - rewrite (remove_exact k ctx s me Hme). simpl.
    destruct (_ >? _); [|reflexivity].
    apply (save_map f _ me); [|apply Hf].
    rewrite set_edges_id. destruct (findById_id _ _ _ Hme) as [-> _]. exact Hme.
  - destruct k; simpl; unfold unfollow, unfollowingTopic; by rewrite Hme.
Qed.

Lemma login_outcome (c : Ctx Credentials) (s : Store) :
  fst (login c s) =
    match verifyParams (request_body c) with
    | None => Throw 422 "Validation Failed"
    | Some (n, p) =>
        match find (fun u => String.eqb (name u) n && String.eqb (password u) p) s with
        | None => Throw 412 "用户名或密码错误"
        | Some user =>
            Respond 200
              (Some (PToken (jwt_sign [("name", name user); ("_id", _id user)] "1d")))
        end
    end.
Proof.
  unfold login, findOne. destruct (verifyParams _) as [[n p]|]; [|reflexivity].
  by destruct (find _ s).
Qed.

(** [login] reads the names, passwords and ids only. *)
Lemma login_view (c : Ctx Credentials) (s s' : Store) :
  map credential_view s = map credential_view s' ->
  fst (login c s) = fst (login c s').
Proof.
  rewrite !login_outcome. destruct (verifyParams _) as [[n p]|]; [|reflexivity].
  revert s'.
  induction s as [|u s IH]; intros [|u' s']; simpl; try discriminate; [reflexivity|].
  unfold credential_view at 1 2. intros H.
  injection H as Hn Hp Hi Hrest. rewrite Hn, Hp.
  destruct (String.eqb (name u') n && String.eqb (password u') p); simpl.
  - by rewrite Hn, Hi.
  - by apply IH.
Qed.

(** X10. What the relationship handlers never touch. [add] and [remove]
    of either kind keep, record by record and in store order, the ids,
    names and passwords and the edge set of the other kind; so the number
    of records is the same and every [login] is answered after them as
    it was before. *)
Theorem relationship_handlers_preserve
  {B} (k : EdgeKind) (ctx : Ctx B) (s : Store) (c : Ctx Credentials) :
  map _id (snd (add k ctx s)) = map _id s /\
  map name (snd (add k ctx s)) = map name s /\
  map password (snd (add k ctx s)) = map password s /\
  map (edges (other k)) (snd (add k ctx s)) = map (edges (other k)) s /\
  fst (login c (snd (add k ctx s))) = fst (login c s) /\
  map _id (snd (remove k ctx s)) = map _id s /\
  map name (snd (remove k ctx s)) = map name s /\
  map password (snd (remove k ctx s)) = map password s /\
  map (edges (other k)) (snd (remove k ctx s)) = map (edges (other k)) s /\
  fst (login c (snd (remove k ctx s))) = fst (login c s).
Proof.
  repeat split;
    try (apply login_view);
    try (apply add_map; intros u l; by destruct k);
    try (apply remove_map; intros u l; by destruct k).
Qed.

(** ** Guards and dangling edges *)

Lemma following_resolve_save (me' : User) (s : Store) :
  following_resolve s ->
  (forall id, id ∈ following me' -> is_Some (findById id s)) ->
  following_resolve (save me' s).
Proof.
  intros Hs Hme' u Hu id Hid. apply findById_is_Some. rewrite save_ids.
  apply findById_is_Some.
  destruct (save_elem_of _ _ _ Hu) as [-> | Hin]; [by apply Hme' | by apply (Hs u)].
Qed.

Lemma add_following_resolve {B} (k : EdgeKind) (ctx : Ctx B) (s : Store) :
  following_resolve s ->
  (k = FollowingUsers -> is_Some (findById (path_id ctx) s)) ->
  following_resolve (snd (add k ctx s)).
Proof.
  intros Hs Ht. destruct (findById (acting_id ctx) s) as [me|] eqn:Hme.
  - destruct (findById_id _ _ _ Hme) as [_ Hin].
    destruct (add_cases k ctx s me Hme)
      as [[_ ->] | (_ & me' & -> & _ & Hk & Ho)]; [exact Hs|].
    simpl. apply following_resolve_save; [exact Hs|]. intros id Hid.
    destruct k; simpl in *.
    + rewrite Hk in Hid. apply elem_of_app in Hid as [Hid | Hid].
      * by apply (Hs me).
      * apply list_elem_of_singleton in Hid. subst id. by apply Ht.
    + rewrite Ho in Hid. by apply (Hs me).
  - destruct k; simpl; unfold follow, followingTopic; by rewrite Hme.
Qed.

Lemma delete_elem_of {A} (n : nat) (x : A) (l : list A) : x ∈ delete n l -> x ∈ l.
Proof. apply list_elem_of_delete_inv. Qed.

Lemma remove_following_resolve {B} (k : EdgeKind) (ctx : Ctx B) (s : Store) :
  following_resolve s -> following_resolve (snd (remove k ctx s)).
Proof.
  intros Hs. destruct (findById (acting_id ctx) s) as [me|] eqn:Hme.
  - destruct (findById_id _ _ _ Hme) as [_ Hin].
    destruct (remove_cases k ctx s me Hme)
      as [[_ ->] | (n & me' & _ & -> & _ & Hk & Ho)]; [exact Hs|].
    simpl. apply following_resolve_save; [exact Hs|]. intros id Hid.
    destruct k; simpl in *.
    + rewrite Hk in Hid. apply delete_elem_of in Hid. by apply (Hs me).
    + rewrite Ho in Hid. by apply (Hs me).
  - destruct k; simpl; unfold unfollow, unfollowingTopic; by rewrite Hme.
Qed.

(** X11. Behind [checkUserExist], following creates no dangling edge. If
    every id of every [following] array has a record, this is still so
    after [follow] guarded by [checkUserExist], and after [unfollow],
    [followingTopic] and [unfollowingTopic] guarded or not; and when the
    path id has no record the guard ends in 412 and nothing is written. *)
Theorem guarded_follow_resolves {B} (ctx : Ctx B) (s : Store) :
  following_resolve s ->
  following_resolve (snd (checkUserExist follow ctx s)) /\
  following_resolve (snd (unfollow ctx s)) /\
  following_resolve (snd (followingTopic ctx s)) /\
  following_resolve (snd (unfollowingTopic ctx s)) /\
  (findById (path_id ctx) s = None ->
   checkUserExist follow ctx s = (Throw 412 "用户不存在", s)).
Proof.
  intros Hs. split; [|split; [|split; [|split]]].
  - unfold checkUserExist.
    destruct (findById (path_id ctx) s) as [t|] eqn:Ht; [|exact Hs].
    apply (add_following_resolve FollowingUsers); [exact Hs|].
    intros _. rewrite Ht. by eexists.
  - by apply (remove_following_resolve FollowingUsers).
  - apply (add_following_resolve FollowingTopics); [exact Hs | discriminate].
  - by apply (remove_following_resolve FollowingTopics).
  - intros Hn. unfold checkUserExist. by rewrite Hn.
Qed.

Lemma guarded_follow_resolves_witness :
  following_resolve registered /\
  edgeSet FollowingUsers alice_id
    (snd (checkUserExist follow (request alice_id upper_bob_id tt) registered))
    = Some [bob_id] /\
  following_resolve
    (snd (checkUserExist follow (request alice_id upper_bob_id tt) registered)) /\
  checkUserExist follow (request alice_id stranger_id tt) registered
    = (Throw 412 "用户不存在", registered).
Proof.
  assert (following_resolve registered) as Hs.
  { intros u Hu id Hid. exfalso.
    apply elem_of_cons in Hu as [-> | Hu]; [by apply elem_of_nil in Hid|].
    apply list_elem_of_singleton in Hu. subst u. by apply elem_of_nil in Hid. }
  split; [exact Hs|]. split; [reflexivity|].
  destruct (guarded_follow_resolves (request alice_id upper_bob_id tt) registered Hs)
    as (H & _).
  destruct (guarded_follow_resolves (request alice_id stranger_id tt) registered Hs)
    as (_ & _ & _ & _ & H').
  split; [exact H | exact (H' eq_refl)].
Defined.

(** Without the guard, or after a deletion, an edge can dangle: alice may
    follow an id that has no record, and she still follows bob once bob's
    record is deleted. *)
Remark following_can_dangle :
  ~ following_resolve (snd (follow (request alice_id stranger_id tt) registered)) /\
  ~ following_resolve
      (snd (deleteUserById (request bob_id bob_id tt) alice_follows_bob)).
Proof.
  split; intros H.
  - destruct (H (set_following (new_User alice_id "alice" "pw") [stranger_id])
                ltac:(by left) stranger_id ltac:(by left)) as [? [=]].
  - destruct (H (set_following (new_User alice_id "alice" "pw") [bob_id])
                ltac:(by left) bob_id ltac:(by left)) as [? [=]].
Qed.

Lemma topics_resolve_save (topics : list Topic) (me' : User) (s : Store) :
  topics_resolve topics s ->
  (forall id, id ∈ followingTopics me' -> id ∈ map topic_id topics) ->
  topics_resolve topics (save me' s).
Proof.
  intros Hs Hme' u Hu id Hid.
  destruct (save_elem_of _ _ _ Hu) as [-> | Hin]; [by apply Hme' | by apply (Hs u)].
Qed.

Lemma find_topic (id : Id) (topics : list Topic) (t : Topic) :
  find (fun t => String.eqb (topic_id t) id) topics = Some t ->
  id ∈ map topic_id topics.
Proof.
  intros H. apply find_some in H as [Hin Heq]. apply String.eqb_eq in Heq.
  subst id. apply list_elem_of_In, in_map, Hin.
Qed.

Lemma add_topics_resolve
  {B} (topics : list Topic) (k : EdgeKind) (ctx : Ctx B) (s : Store) :
  topics_resolve topics s ->
  (k = FollowingTopics -> path_id ctx ∈ map topic_id topics) ->
  topics_resolve topics (snd (add k ctx s)).
Proof.
  intros Hs Ht. destruct (findById (acting_id ctx) s) as [me|] eqn:Hme.
  - destruct (findById_id _ _ _ Hme) as [_ Hin].
    destruct (add_cases k ctx s me Hme)
      as [[_ ->] | (_ & me' & -> & _ & Hk & Ho)]; [exact Hs|].
    simpl. apply topics_resolve_save; [exact Hs|]. intros id Hid.
    destruct k; simpl in *.
    + rewrite Ho in Hid. by apply (Hs me).
    + rewrite Hk in Hid. apply elem_of_app in Hid as [Hid | Hid].
      * by apply (Hs me).
      * apply list_elem_of_singleton in Hid. subst id. by apply Ht.
  - destruct k; simpl; unfold follow, followingTopic; by rewrite Hme.
Qed.

Lemma remove_topics_resolve
  {B} (topics : list Topic) (k : EdgeKind) (ctx : Ctx B) (s : Store) :
  topics_resolve topics s -> topics_resolve topics (snd (remove k ctx s)).
Proof.
  intros Hs. destruct (findById (acting_id ctx) s) as [me|] eqn:Hme.
  - destruct (findById_id _ _ _ Hme) as [_ Hin].
    destruct (remove_cases k ctx s me Hme)
      as [[_ ->] | (n & me' & _ & -> & _ & Hk & Ho)]; [exact Hs|].
    simpl. apply topics_resolve_save; [exact Hs|]. intros id Hid.
    destruct k; simpl in *.
    + rewrite Ho in Hid. by apply (Hs me).
    + rewrite Hk in Hid. apply delete_elem_of in Hid. by apply (Hs me).
  - destruct k; simpl; unfold unfollow, unfollowingTopic; by rewrite Hme.
Qed.

(** X12. Behind [checkTopicExist], only existing topics are followed. If
    every id of every [followingTopics] array is the id of a topic, this
    is still so after [followingTopic] guarded by [checkTopicExist], and
    after [unfollowingTopic], [follow] and [unfollow]; and when the path
    id is no topic's the guard ends in 412, with the message of the user
    guard, and nothing is written. *)
Theorem guarded_followingTopic_resolves
  {B} (topics : list Topic) (ctx : Ctx B) (s : Store) :
  topics_resolve topics s ->
  topics_resolve topics (snd (checkTopicExist topics followingTopic ctx s)) /\
  topics_resolve topics (snd (unfollowingTopic ctx s)) /\
  topics_resolve topics (snd (follow ctx s)) /\
  topics_resolve topics (snd (unfollow ctx s)) /\
  ((path_id ctx ∉ map topic_id topics) ->
   checkTopicExist topics followingTopic ctx s = (Throw 412 "用户不存在", s)).
Proof.
  intros Hs. split; [|split; [|split; [|split]]].
  - unfold checkTopicExist.
    destruct (find _ topics) as [t|] eqn:Ht; [|exact Hs].
    apply (add_topics_resolve topics FollowingTopics); [exact Hs|].
    intros _. by apply (find_topic _ _ t).
  - by apply (remove_topics_resolve topics FollowingTopics).
  - apply (add_topics_resolve topics FollowingUsers); [exact Hs | discriminate].
  - by apply (remove_topics_resolve topics FollowingUsers).
  - intros Hn. unfold checkTopicExist.
    destruct (find _ topics) as [t|] eqn:Ht; [|reflexivity].
    exfalso. apply Hn. by apply (find_topic _ _ t).
Qed.

Lemma guarded_followingTopic_resolves_witness :
  topics_resolve sample_topics registered /\
  edgeSet FollowingTopics alice_id
    (snd (checkTopicExist sample_topics followingTopic
            (request alice_id topic_rocq tt) registered)) = Some [topic_rocq] /\
  topics_resolve sample_topics
    (snd (checkTopicExist sample_topics followingTopic
            (request alice_id topic_rocq tt) registered)) /\
  checkTopicExist sample_topics followingTopic
      (request alice_id bob_id tt) registered
    = (Throw 412 "用户不存在", registered).
Proof.
  assert (topics_resolve sample_topics registered) as Hs.
  { intros u Hu id Hid. exfalso.
    apply elem_of_cons in Hu as [-> | Hu]; [by apply elem_of_nil in Hid|].
    apply list_elem_of_singleton in Hu. subst u. by apply elem_of_nil in Hid. }
  assert (path_id (request alice_id bob_id tt) ∉ map topic_id sample_topics) as Hn.
  { apply (bool_decide_unpack _). vm_compute. exact I. }
  split; [exact Hs|]. split; [reflexivity|].
  destruct (guarded_followingTopic_resolves sample_topics
              (request alice_id topic_rocq tt) registered Hs) as (H & _).
  destruct (guarded_followingTopic_resolves sample_topics
              (request alice_id bob_id tt) registered Hs) as (_ & _ & _ & _ & H').
  split; [exact H | exact (H' Hn)].
Defined.

(** ** Listing the followed users *)

Lemma populate_elem_of (s : Store) (u v : User) :
  v ∈ populate_following s u <->
  exists id, id ∈ following u /\ findById id s = Some v.
Proof. unfold populate_following. apply list_elem_of_omap. Qed.

Lemma populate_ids_sublist (s : Store) (l : list Id) :
  map _id (omap (fun id => findById id s) l) `sublist_of` l.
Proof.
  induction l as [|id l IH]; simpl; [constructor|].
  destruct (findById id s) as [v|] eqn:Hv; simpl.
  - destruct (findById_id _ _ _ Hv) as [-> _]. by constructor.
  - by constructor.
Qed.

Lemma populate_all (s : Store) (l : list Id) :
  (forall id, id ∈ l -> is_Some (findById id s)) ->
  map _id (omap (fun id => findById id s) l) = l.
Proof.
  induction l as [|id l IH]; simpl; [reflexivity|]. intros H.
  assert (map _id (omap (fun id => findById id s) l) = l) as IH'
    by (apply IH; intros id' Hid'; apply H; by right).
  destruct (H id ltac:(by left)) as [v Hv]. rewrite Hv. simpl.
  destruct (findById_id _ _ _ Hv) as [Hid _]. rewrite Hid. f_equal. exact IH'.
Qed.

Lemma NoDup_map_inv {A C} (f : A -> C) (l : list A) : NoDup (map f l) -> NoDup l.
Proof.
  induction l as [|x l IH]; simpl; [constructor|].
  rewrite !NoDup_cons. intros [Hx Hl]. split; [|by apply IH].
  intros Hin. apply Hx. apply list_elem_of_In, in_map. by apply list_elem_of_In.
Qed.

(** X13. [listFollowing] ends in 412 when the path id has no record.
    Otherwise it answers 200, writes nothing, and lists exactly the
    records the ids of that user's [following] resolve to, in the order
    of the array: ids without record are left out, ids with a record are
    all there, and no record is listed twice when no id is held twice. *)
Theorem listFollowing_contract {B} (ctx : Ctx B) (s : Store) :
  (findById (path_id ctx) s = None ->
   listFollowing ctx s = (Throw 412 "用户不存在", s)) /\
  (forall u, findById (path_id ctx) s = Some u ->
     exists users,
       listFollowing ctx s = (Respond 200 (Some (PUsers users)), s) /\
       (forall v, v ∈ users <->
                  exists id, id ∈ following u /\ findById id s = Some v) /\
       map _id users `sublist_of` following u /\
       (NoDup (following u) -> NoDup users) /\
       ((forall id, id ∈ following u -> is_Some (findById id s)) ->
        map _id users = following u)).
Proof.
  unfold listFollowing. split.
  - by intros ->.
  - intros u ->. exists (populate_following s u).
    split; [reflexivity|]. split; [apply populate_elem_of|].
    split; [apply populate_ids_sublist|]. split.
    + intros Hnd. apply (NoDup_map_inv _id).
      eapply sublist_NoDup; [exact Hnd | apply populate_ids_sublist].
    + apply populate_all.
Qed.

Lemma listFollowing_contract_witness :
  listFollowing (request "" stranger_id tt) alice_follows_bob
    = (Throw 412 "用户不存在", alice_follows_bob) /\
  exists users,
    listFollowing (request "" alice_id tt) alice_follows_bob
      = (Respond 200 (Some (PUsers users)), alice_follows_bob) /\
    map _id users = [bob_id].
Proof.
  destruct (listFollowing_contract (request "" stranger_id tt) alice_follows_bob)
    as [Hnone _].
  destruct (listFollowing_contract (request "" alice_id tt) alice_follows_bob)
    as [_ Hsome].
  split; [exact (Hnone eq_refl)|].
  destruct (Hsome _ eq_refl) as (users & Hl & _ & _ & _ & Hall).
  exists users. split; [exact Hl|]. apply Hall.
  intros id Hid. apply list_elem_of_singleton in Hid. subst id. by eexists.
Defined.

(** X14. Following shows in both listings. When the acting user and the
    target both have a record (the ids the acting user holds being in
    canonical form, as [ObjectId]s are), then after [follow] guarded by
    [checkUserExist] the listing [listFollowing] of the acting user holds
    a record with the target's id, and [getUserFollowers] of the target
    holds the acting user's record. *)
Theorem follow_then_listed
  {B} (ctx c : Ctx B) (s : Store) (me t : User) :
  findById (acting_id ctx) s = Some me ->
  findById (path_id ctx) s = Some t ->
  path_id c = acting_id ctx ->
  (forall id, id ∈ following me -> cast id = id) ->
  exists users followers me',
    listFollowing c (snd (checkUserExist follow ctx s))
      = (Respond 200 (Some (PUsers users)), snd (checkUserExist follow ctx s)) /\
    (exists v, v ∈ users /\ _id v = path_id ctx) /\
    getUserFollowers ctx (snd (checkUserExist follow ctx s))
      = (Respond 200 (Some (PFollowers followers)),
         snd (checkUserExist follow ctx s)) /\
    findById (acting_id ctx) (snd (checkUserExist follow ctx s))
      = Some me' /\
    me' ∈ followers.
Proof.
  intros Hme Ht Hc Hcanon.
  assert (checkUserExist follow ctx s = add FollowingUsers ctx s) as ->
    by (unfold checkUserExist; by rewrite Ht).
  destruct (add_post FollowingUsers ctx s me Hme) as (me' & _ & Hme' & Hin & _).
  specialize (Hin Hcanon). simpl in Hin.
  assert (is_Some (findById (path_id ctx) (snd (add FollowingUsers ctx s))))
    as [v Hv].
  { apply findById_is_Some. rewrite add_map by (intros; reflexivity).
    apply findById_is_Some. rewrite Ht. by eexists. }
  destruct (findById_id _ _ _ Hv) as [Hvid _].
  destruct (findById_id _ _ _ Hme') as [_ Hme'in].
  eexists _, _, me'. unfold listFollowing. rewrite Hc, Hme'.
  split; [reflexivity|]. split.
  { exists v. split; [|exact Hvid]. apply populate_elem_of. by exists (path_id ctx). }
  unfold getUserFollowers. split; [reflexivity|]. split; [reflexivity|].
  by apply followers_elem_of.
Qed.

Lemma follow_then_listed_witness :
  exists users followers me',
    listFollowing (request alice_id alice_id tt) alice_follows_bob
      = (Respond 200 (Some (PUsers users)), alice_follows_bob) /\
    (exists v, v ∈ users /\ _id v = bob_id) /\
    getUserFollowers (request alice_id upper_bob_id tt) alice_follows_bob
      = (Respond 200 (Some (PFollowers followers)), alice_follows_bob) /\
    findById alice_id alice_follows_bob = Some me' /\
    me' ∈ followers.
Proof.
  apply (follow_then_listed (request alice_id upper_bob_id tt)
           (request alice_id alice_id tt)
           registered (new_User alice_id "alice" "pw") (new_User bob_id "bob" "right")
           eq_refl eq_refl eq_refl).
  intros id Hid. by apply elem_of_nil in Hid.
Defined.

(** X15. The two listings are converse. Whenever [listFollowing] of a
    user lists a record, [getUserFollowers] of that record's id lists a
    record bearing the user's id. *)
Theorem following_followers_converse
  {B} (ctx c : Ctx B) (s : Store) (users : list User) (v : User) :
  listFollowing ctx s = (Respond 200 (Some (PUsers users)), s) ->
  v ∈ users ->
  path_id c = _id v ->
  exists followers w,
    getUserFollowers c s = (Respond 200 (Some (PFollowers followers)), s) /\
    w ∈ followers /\ _id w = path_id ctx.
Proof.
  unfold listFollowing.
  destruct (findById (path_id ctx) s) as [u|] eqn:Hu; [|discriminate].
  intros [= <-] Hv Hc.
  apply populate_elem_of in Hv as (id & Hid & Hv).
  destruct (findById_id _ _ _ Hv) as [Hvid _].
  destruct (findById_id _ _ _ Hu) as [Huid Huin].
  eexists _, u. split; [reflexivity|]. split; [|exact Huid].
  apply followers_elem_of. split; [exact Huin|]. by rewrite Hc, Hvid.
Qed.

Lemma following_followers_converse_witness :
  exists followers w,
    getUserFollowers (request "" bob_id tt) alice_follows_bob
      = (Respond 200 (Some (PFollowers followers)), alice_follows_bob) /\
    w ∈ followers /\ _id w = alice_id.
Proof.
  apply (following_followers_converse (request "" alice_id tt) (request "" bob_id tt)
           alice_follows_bob [new_User bob_id "bob" "right"]
           (new_User bob_id "bob" "right")).
  - reflexivity.
  - apply list_elem_of_here.
  - reflexivity.
Defined.

(** ** The strings handed to [select] and [populate] *)

Lemma split_app_sep (sep : ascii) (a b : string) :
  split sep (a ++ String sep b) = (split sep a ++ split sep b)%list.
Proof.
  induction a as [|c a IH]; simpl; [by rewrite Ascii.eqb_refl|].
  rewrite IH. destruct (Ascii.eqb c sep); [reflexivity|].
  by destruct (split_cons sep a) as (w & ws & ->).
Qed.

Lemma split_all_chars (P : ascii -> bool) (sep : ascii) (s v : string) :
  all_chars P s = true -> v ∈ split sep s -> all_chars P v = true.
Proof.
  revert v. induction s as [|c rest IH]; simpl; intros v Hs Hv.
  - apply list_elem_of_singleton in Hv. by subst v.
  - apply andb_true_iff in Hs as [Hc Hrest].
    destruct (split_cons sep rest) as (w & ws & E). rewrite E in IH, Hv.
    destruct (Ascii.eqb c sep).
    + apply elem_of_cons in Hv as [-> | Hv]; [reflexivity | by apply IH].
    + apply elem_of_cons in Hv as [-> | Hv].
      * simpl. rewrite Hc. simpl. apply IH; [exact Hrest | by left].
      * apply IH; [exact Hrest | by right].
Qed.

(** Joining with a space and reading the words back gives the words of
    each piece, in order. *)
Lemma paths_join (l : list string) : paths (join " " l) = flat_map paths l.
Proof.
  induction l as [|w [|w' ws] IH]; [reflexivity | simpl; by rewrite app_nil_r |].
  rewrite join_cons.
  change (w ++ " " ++ join " " (w' :: ws)) with (w ++ String " " (join " " (w' :: ws))).
  unfold paths at 1. rewrite split_app_sep, List.filter_app.
  change (flat_map paths (w :: w' :: ws))
    with (paths w ++ flat_map paths (w' :: ws))%list.
  by rewrite <- IH.
Qed.

Lemma paths_word (v : string) :
  v <> "" -> all_chars (fun c => negb (Ascii.eqb c " ")) v = true -> paths v = [v].
Proof.
  intros Hne Hv. unfold paths. rewrite (split_single _ _ Hv). simpl.
  apply Boolean_true in Hne. by rewrite Hne.
Qed.

(** X16. What [getUserById] hands to the store. It ends in 412 when the
    id has no record; when it has one, it answers 200 with the record and
    the two strings if the store populates the paths, and ends in an
    uncaught [CastError] if the store fails on one of them; it writes
    nothing. Read back word by word, the [select] string holds the words
    of [+name] for each requested name and the [populate] string the
    words of each name's expansion, in the order of the request; when the
    [fields] string holds no space, the [select] string holds exactly one
    [+name] per requested name. *)
Theorem getUserById_projection
  {B} (populates : string -> User -> bool) (ctx : Ctx B) (s : Store) :
  let fields_ := or_else (fields (query ctx)) "" in
  (findById (path_id ctx) s = None ->
   getUserById populates ctx s = (Throw 412 "无该用户", s)) /\
  (forall u, findById (path_id ctx) s = Some u ->
     populates (popluateFields fields_) u = true ->
     getUserById populates ctx s =
       (Respond 200
          (Some (PProjected u (selectFields fields_) (popluateFields fields_))), s)) /\
  (forall u, findById (path_id ctx) s = Some u ->
     populates (popluateFields fields_) u = false ->
     getUserById populates ctx s = (Uncaught CastError, s)) /\
  paths (selectFields fields_)
    = flat_map (fun v => paths ("+" ++ v)) (requested fields_) /\
  paths (popluateFields fields_)
    = flat_map (fun v => paths (expansion v)) (requested fields_) /\
  (all_chars (fun c => negb (Ascii.eqb c " ")) fields_ = true ->
   paths (selectFields fields_) = map (fun v => "+" ++ v) (requested fields_)).
Proof.
  intros fields_. unfold getUserById. fold fields_.
  split; [by intros ->|]. split; [by intros u -> ->|]. split; [by intros u -> ->|].
  assert (forall (f : string -> string) l,
            flat_map paths (map f l) = flat_map (fun v => paths (f v)) l) as Hfm.
  { intros f l. induction l as [|x l IH]; simpl; [reflexivity | by rewrite IH]. }
  split; [unfold selectFields; by rewrite paths_join, Hfm|].
  split; [unfold popluateFields; by rewrite paths_join, Hfm|].
  intros Hsp. unfold selectFields. rewrite paths_join, Hfm.
  assert (forall v, v ∈ requested fields_ ->
                    paths ("+" ++ v) = ["+" ++ v]) as Hw.
  { intros v Hv. apply requested_elem_of in Hv as [Hv _].
    apply paths_word; [discriminate|]. simpl.
    by apply (split_all_chars _ ";" fields_). }
  induction (requested fields_) as [|x l IH]; simpl; [reflexivity|].
  rewrite (Hw x) by (by left). simpl. f_equal. apply IH.
  intros v Hv. apply Hw. by right.
Qed.

Lemma getUserById_projection_witness :
  paths (selectFields "following;;employments")
    = map (fun v => "+" ++ v) (requested "following;;employments") /\
  getUserById sample_populates (asking bob_id "following;;employments" tt) registered
    = (Respond 200
         (Some (PProjected (new_User bob_id "bob" "right")
                  "+following +employments"
                  "following employments.company employments.job")), registered) /\
  getUserById sample_populates (asking bob_id "password;;following" tt) registered
    = (Uncaught CastError, registered).
Proof.
  destruct (getUserById_projection sample_populates
              (asking bob_id "following;;employments" tt) registered)
    as (_ & Hsome & _ & _ & _ & Hsel).
  destruct (getUserById_projection sample_populates
              (asking bob_id "password;;following" tt) registered)
    as (_ & _ & Hfail & _).
  split; [exact (Hsel eq_refl)|].
  split; [exact (Hsome _ eq_refl eq_refl) | exact (Hfail _ eq_refl eq_refl)].
Defined.

(** ** More on pagination *)

Lemma getAllUsers_integers
  (RegExp_i : option string -> option (string -> bool))
  {B} (ctx : Ctx B) (s : Store) (test : string -> bool) (limit skip : Z) :
  paging (query ctx) = Some (Num limit, Num skip) ->
  RegExp_i (q (query ctx)) = Some test ->
  getAllUsers RegExp_i ctx s =
    Some (Respond 200
            (Some (PUsers (take (Z.to_nat limit)
                             (drop (Z.to_nat skip) (matching test s))))), s).
Proof. intros Hp Hre. unfold getAllUsers. by rewrite Hp, Hre. Qed.

Lemma matching_sublist (test : string -> bool) (s : Store) :
  matching test s `sublist_of` s.
Proof.
  unfold matching. induction s as [|u s IH]; simpl; [constructor|].
  destruct (test (name u)); by constructor.
Qed.

(** X17. Consecutive pages are consecutive windows. For a page number
    [p >= 1] and the same [per_page] and pattern, the answers for page
    [p] and page [p + 1] put end to end are the matching records from
    position [(p - 1) * limit] on, up to twice the limit: nothing is
    listed twice and nothing is skipped between two pages. *)
Theorem getAllUsers_consecutive_pages
  (RegExp_i : option string -> option (string -> bool))
  {B} (ctx ctx' : Ctx B) (s : Store) (test : string -> bool) (p pp : Z) :
  times1 (page (query ctx)) 1 = Some (Num p) ->
  times1 (page (query ctx')) 1 = Some (Num (p + 1)) ->
  times1 (per_page (query ctx)) 2 = Some (Num pp) ->
  per_page (query ctx') = per_page (query ctx) ->
  q (query ctx') = q (query ctx) ->
  1 <= p ->
  (p + 1) * Z.max pp 1 <= 2 ^ 53 ->
  RegExp_i (q (query ctx)) = Some test ->
  exists users users',
    getAllUsers RegExp_i ctx s = Some (Respond 200 (Some (PUsers users)), s) /\
    getAllUsers RegExp_i ctx' s = Some (Respond 200 (Some (PUsers users')), s) /\
    (users ++ users')%list =
      take (Z.to_nat (2 * Z.max pp 1))
           (drop (Z.to_nat ((p - 1) * Z.max pp 1)) (matching test s)).
Proof.
  intros Hp Hp' Hpp Hpp' Hq Hp1 Hb Hre.
  assert (paging (query ctx)
          = Some (Num (Z.max pp 1), Num ((p - 1) * Z.max pp 1))) as Hpg.
  { rewrite (paging_integers _ p pp Hp Hpp) by nia.
    by replace (Z.max p 1) with p by lia. }
  assert (paging (query ctx')
          = Some (Num (Z.max pp 1), Num (p * Z.max pp 1))) as Hpg'.
  { assert (times1 (per_page (query ctx')) 2 = Some (Num pp)) as Hpp2
      by (by rewrite Hpp').
    rewrite (paging_integers _ (p + 1) pp Hp' Hpp2) by nia.
    by replace (Z.max (p + 1) 1 - 1) with p by lia. }
  rewrite <- Hq in Hre.
  rewrite (getAllUsers_integers RegExp_i ctx' s test _ _ Hpg' Hre).
  rewrite Hq in Hre.
  rewrite (getAllUsers_integers RegExp_i ctx s test _ _ Hpg Hre).
  eexists _, _. split; [reflexivity|]. split; [reflexivity|].
  replace (Z.to_nat (p * Z.max pp 1))
    with (Z.to_nat ((p - 1) * Z.max pp 1) + Z.to_nat (Z.max pp 1))%nat by nia.
  rewrite <- drop_drop, take_take_drop. f_equal. lia.
Qed.

Lemma getAllUsers_consecutive_pages_witness :
  exists users users',
    getAllUsers (fun _ => Some (fun _ => true))
        (listing (page_query "1" "1") tt) two_bobs
      = Some (Respond 200 (Some (PUsers users)), two_bobs) /\
    getAllUsers (fun _ => Some (fun _ => true))
        (listing (page_query "2" "1") tt) two_bobs
      = Some (Respond 200 (Some (PUsers users')), two_bobs) /\
    (users ++ users')%list =
      take (Z.to_nat (2 * Z.max 1 1))
           (drop (Z.to_nat ((1 - 1) * Z.max 1 1)) (matching (fun _ => true) two_bobs)).
Proof.
  apply (getAllUsers_consecutive_pages (fun _ => Some (fun _ => true))
           (listing (page_query "1" "1") tt) (listing (page_query "2" "1") tt)
           two_bobs (fun _ => true) 1 1);
    try reflexivity; vm_compute; discriminate.
Defined.

(** X18. What a page holds. Whenever limit and skip are integers and the
    pattern is well formed, [getAllUsers] answers 200, writes nothing, and
    lists records of the collection in store order, each with a matching
    name, no more than the limit; a skip at or past the number of
    matching records gives the empty page, and skip 0 with a limit that
    covers them gives all matching records. *)
Theorem getAllUsers_window
  (RegExp_i : option string -> option (string -> bool))
  {B} (ctx : Ctx B) (s : Store) (test : string -> bool) (limit skip : Z) :
  paging (query ctx) = Some (Num limit, Num skip) ->
  RegExp_i (q (query ctx)) = Some test ->
  exists users,
    getAllUsers RegExp_i ctx s = Some (Respond 200 (Some (PUsers users)), s) /\
    users `sublist_of` s /\
    (forall u, u ∈ users -> test (name u) = true) /\
    (length users <= Z.to_nat limit)%nat /\
    (Z.of_nat (length (matching test s)) <= skip -> users = []) /\
    (skip <= 0 -> Z.of_nat (length (matching test s)) <= limit ->
     users = matching test s).
Proof.
  intros Hpg Hre. eexists. split; [by apply getAllUsers_integers|].
  split; [|split; [|split; [|split]]].
  - etrans; [apply sublist_take|]. etrans; [apply sublist_drop|].
    apply matching_sublist.
  - intros u Hu.
    assert (u ∈ matching test s) as Hm.
    { eapply elem_of_sublist; [exact Hu|].
      etrans; [apply sublist_take | apply sublist_drop]. }
    unfold matching in Hm. by apply list_elem_of_In, filter_In in Hm as [_ Hm].
  - apply firstn_le_length.
  - intros Hlen. rewrite drop_ge by lia. by destruct (Z.to_nat limit).
  - intros H0 Hlen. replace (Z.to_nat skip) with 0%nat by lia.
    simpl. apply take_ge. lia.
Qed.

Lemma getAllUsers_window_witness :
  exists users,
    getAllUsers (fun _ => Some (fun _ => true))
        (listing (page_query "9" "2") tt) two_bobs
      = Some (Respond 200 (Some (PUsers users)), two_bobs) /\
    users = [].
Proof.
  destruct (getAllUsers_window (fun _ => Some (fun _ => true))
              (listing (page_query "9" "2") tt) two_bobs (fun _ => true) 2 16
              eq_refl eq_refl) as (users & Hg & _ & _ & _ & Hempty & _).
  exists users. split; [exact Hg|]. apply Hempty. vm_compute. discriminate.
Defined.

(** ** Changing a password *)

Lemma NoDup_map_elem {A C} (f : A -> C) (l : list A) (x y : A) :
  NoDup (map f l) -> x ∈ l -> y ∈ l -> f x = f y -> x = y.
Proof.
  induction l as [|z l IH]; simpl; [intros _ H; by apply elem_of_nil in H|].
  rewrite NoDup_cons, !elem_of_cons. intros [Hz Hl] [-> | Hx] [-> | Hy] Hf.
  - reflexivity.
  - exfalso. apply Hz. rewrite Hf. apply list_elem_of_In, in_map. by apply list_elem_of_In.
  - exfalso. apply Hz. rewrite <- Hf. apply list_elem_of_In, in_map. by apply list_elem_of_In.
  - by apply IH.
Qed.

Lemma findByIdAndUpdate_names (id : Id) (p : Patch) (s : Store) :
  p_name p = None -> map name (snd (findByIdAndUpdate id p s)) = map name s.
Proof.
  intros Hp. induction s as [|u s IH]; simpl; [reflexivity|].
  destruct (String.eqb (_id u) id); simpl.
  - by rewrite Hp.
  - destruct (findByIdAndUpdate id p s) as [r s']. simpl in *. by rewrite IH.
Qed.

Lemma updateUserById_store_lookup (ctx : Ctx Patch) (s : Store) (u : User) :
  findById (path_id ctx) s = Some u ->
  verifyParams_updateUserById (request_body ctx) = true ->
  findById (path_id ctx) (snd (updateUserById ctx s))
    = Some (merge u (request_body ctx)) /\
  (p_name (request_body ctx) = None ->
   map name (snd (updateUserById ctx s)) = map name s).
Proof.
  intros Hu Hvalid. unfold updateUserById. rewrite Hvalid.
  pose proof (findByIdAndUpdate_names (path_id ctx) (request_body ctx) s) as Hn.
  destruct (findByIdAndUpdate_present _ (request_body ctx) _ _ Hu)
    as (s' & Hup & Hm & _).
  rewrite Hup in *. simpl in *. by split.
Qed.

(** X19. Changing the password. When the names are pairwise distinct and
    the id has a record, then after an [updateUserById] whose body passes
    the rules and sets a password and no name, [login] with that record's
    name and the new password answers 200 with a token for that record's
    id, and [login] with the same name and any other non-empty password
    ends in 412. *)
Theorem update_password_then_login
  (ctx : Ctx Patch) (c c' : Ctx Credentials) (s : Store) (u : User)
  (pw pw' : string) :
  findById (path_id ctx) s = Some u ->
  NoDup (map name s) ->
  verifyParams_updateUserById (request_body ctx) = true ->
  p_name (request_body ctx) = None ->
  p_password (request_body ctx) = Some pw ->
  request_body c = credentials (name u) pw ->
  request_body c' = credentials (name u) pw' ->
  name u <> "" ->
  pw <> "" ->
  pw' <> "" ->
  pw' <> pw ->
  fst (login c (snd (updateUserById ctx s)))
    = Respond 200 (Some (PToken {| payload := [("name", name u); ("_id", _id u)];
                                   expiresIn := "1d" |})) /\
  fst (login c' (snd (updateUserById ctx s))) = Throw 412 "用户名或密码错误".
Proof.
  intros Hu Hnd Hvalid Hname Hpw Hc Hc' Hnne Hpwe Hpwe' Hne.
  destruct (updateUserById_store_lookup ctx s u Hu Hvalid) as (Hm & Hs').
  specialize (Hs' Hname).
  set (s' := snd (updateUserById ctx s)) in *.
  set (m := merge u (request_body ctx)) in *.
  assert (name m = name u) as Hmn by (unfold m, merge; simpl; by rewrite Hname).
  assert (password m = pw) as Hmp by (unfold m, merge; simpl; by rewrite Hpw).
  assert (_id m = _id u) as Hmi by reflexivity.
  destruct (findById_id _ _ _ Hm) as [_ Hmin].
  assert (NoDup (map name s')) as Hnd' by (by rewrite Hs').
  assert (forall r, r ∈ s' -> name r = name u -> r = m) as Honly.
  { intros r Hr Hrn. apply (NoDup_map_elem name s'); [done..|]. by rewrite Hmn. }
  rewrite !login_outcome, Hc, Hc'.
  rewrite (verifyParams_valid _ pw Hnne Hpwe), (verifyParams_valid _ pw' Hnne Hpwe').
  split.
  - destruct (find _ s') as [r|] eqn:E.
    + apply find_some in E as [Hr Hp]. apply andb_true_iff in Hp as [Hn _].
      apply String.eqb_eq in Hn. apply list_elem_of_In in Hr.
      rewrite (Honly r Hr Hn). unfold jwt_sign. by rewrite Hmn, Hmi.
    + exfalso. apply list_elem_of_In in Hmin.
      pose proof (find_none _ _ E m Hmin) as Hf. cbv beta in Hf.
      by rewrite Hmn, Hmp, !String.eqb_refl in Hf.
  - destruct (find _ s') as [r|] eqn:E; [exfalso | reflexivity].
    apply find_some in E as [Hr Hp]. apply andb_true_iff in Hp as [Hn Hp].
    apply String.eqb_eq in Hn, Hp. apply list_elem_of_In in Hr.
    rewrite (Honly r Hr Hn), Hmp in Hp. congruence.
Qed.

Lemma update_password_then_login_witness :
  fst (login (request "" "" (credentials "bob" "n3w"))
         (snd (updateUserById (request bob_id upper_bob_id (new_password "n3w")) registered)))
    = Respond 200 (Some (PToken {| payload := [("name", "bob"); ("_id", bob_id)];
                                   expiresIn := "1d" |})) /\
  fst (login (request "" "" (credentials "bob" "right"))
         (snd (updateUserById (request bob_id upper_bob_id (new_password "n3w")) registered)))
    = Throw 412 "用户名或密码错误".
Proof.
  assert (NoDup (map name registered)) as Hnd.
  { apply (bool_decide_unpack _). vm_compute. exact I. }
  apply (update_password_then_login
           (request bob_id upper_bob_id (new_password "n3w"))
           (request "" "" (credentials "bob" "n3w"))
           (request "" "" (credentials "bob" "right"))
           registered (new_User bob_id "bob" "right") "n3w" "right");
    try reflexivity; try discriminate; exact Hnd.
Defined.
